(** * Commit-history collector: a shallow embedding of
      [commit-history-collector.py] and the properties of its log parser,
      its already-processed guard and its repository acquirer.

    Text is a sequence of characters, [list ascii]: the code points below
    256 of a Python [str].  The character classes are those of Python 3 on
    that range: [\d] is [0-9], [\s] and [str.strip] use the white space
    9-13, 28-31, 32, 133 and 160, and [.] is every character but the line
    feed. *)

From Stdlib Require Import List Ascii String Bool Arith NArith ZArith Lia.
From Stdlib Require Import DecimalString.
Import ListNotations.

Set Implicit Arguments.

(** ** Text *)

Definition str := list ascii.

Definition L (s : string) : str := list_ascii_of_string s.

Arguments L _ : simpl never.

Definition newline : ascii := ascii_of_nat 10.
Definition tab : ascii := ascii_of_nat 9.

Definition code (c : ascii) : N := N_of_ascii c.

Definition between (lo hi : N) (c : ascii) : bool :=
  (N.leb lo (code c) && N.leb (code c) hi)%bool.

(** [\d] *)
Definition is_digit (c : ascii) : bool := between 48 57 c.

(** [[0-9a-fA-F]] *)
Definition is_hex (c : ascii) : bool :=
  (between 48 57 c || between 97 102 c || between 65 70 c)%bool.

(** [\s], and the characters [str.strip()] removes *)
Definition is_space (c : ascii) : bool :=
  (between 9 13 c || between 28 32 c
   || N.eqb (code c) 133 || N.eqb (code c) 160)%bool.

(** [.] without the DOTALL flag *)
Definition dot (c : ascii) : bool := negb (Ascii.eqb c newline).

Fixpoint str_eqb (a b : str) : bool :=
  match a, b with
  | [], [] => true
  | x :: a', y :: b' => (Ascii.eqb x y && str_eqb a' b')%bool
  | _, _ => false
  end.

(** [s.split('\n')]: never empty, the pieces hold no separator. *)
Fixpoint split_on (sep : ascii) (s : str) : list str :=
  match s with
  | [] => [[]]
  | c :: s' =>
      if Ascii.eqb c sep then [] :: split_on sep s'
      else match split_on sep s' with
           | [] => [[c]]
           | l :: ls => (c :: l) :: ls
           end
  end.

(** [s.replace(old, new)] for a one-character [old]. *)
Definition replace_char (old : ascii) (new : str) (s : str) : str :=
  flat_map (fun c => if Ascii.eqb c old then new else [c]) s.

(** [s.lstrip()], [s.rstrip()] and [s.strip()] *)
Fixpoint lstrip (s : str) : str :=
  match s with
  | c :: s' => if is_space c then lstrip s' else s
  | [] => []
  end.

Definition rstrip (s : str) : str := rev (lstrip (rev s)).

Definition strip (s : str) : str := rstrip (lstrip s).

(** Truth value of a Python string: the empty string is false. *)
Definition truthy (s : str) : bool :=
  match s with [] => false | _ :: _ => true end.

(** [str(n)] for a natural number. *)
Definition str_of_nat (n : nat) : str :=
  L (NilEmpty.string_of_uint (Nat.to_uint n)).

(** ** The two regular expressions, as backtracking matchers

    Each construct of a pattern is a matcher in continuation-passing style:
    it consumes a prefix of the text and hands the capture and the rest to
    its continuation; when the continuation fails it tries its next choice,
    in the order of Python's [re]: longest first for a greedy quantifier,
    shortest first for a lazy one, left alternative first. *)

Section Backtracking.

Variable R : Type.

(** a literal *)
Fixpoint lit (l : str) (k : str -> option R) (s : str) : option R :=
  match l with
  | [] => k s
  | c :: l' =>
      match s with
      | d :: s' => if Ascii.eqb c d then lit l' k s' else None
      | [] => None
      end
  end.

(** [p{n}], the characters consumed so far in [acc] *)
Fixpoint exactly (n : nat) (p : ascii -> bool)
         (k : str -> str -> option R) (acc s : str) : option R :=
  match n with
  | O => k acc s
  | S n' =>
      match s with
      | c :: s' => if p c then exactly n' p k (acc ++ [c]) s' else None
      | [] => None
      end
  end.

(** [p*], greedy *)
Fixpoint star_greedy (p : ascii -> bool)
         (k : str -> str -> option R) (acc s : str) : option R :=
  match s with
  | c :: s' =>
      if p c then
        match star_greedy p k (acc ++ [c]) s' with
        | Some r => Some r
        | None => k acc s
        end
      else k acc s
  | [] => k acc s
  end.

(** [p+], greedy *)
Definition plus_greedy (p : ascii -> bool)
           (k : str -> str -> option R) (s : str) : option R :=
  match s with
  | c :: s' => if p c then star_greedy p k [c] s' else None
  | [] => None
  end.

(** [p*?], lazy *)
Fixpoint star_lazy (p : ascii -> bool)
         (k : str -> str -> option R) (acc s : str) : option R :=
  match k acc s with
  | Some r => Some r
  | None =>
      match s with
      | c :: s' => if p c then star_lazy p k (acc ++ [c]) s' else None
      | [] => None
      end
  end.

(** [p+?], lazy *)
Definition plus_lazy (p : ascii -> bool)
           (k : str -> str -> option R) (s : str) : option R :=
  match s with
  | c :: s' => if p c then star_lazy p k [c] s' else None
  | [] => None
  end.

(** [(\d+|-)]: the digits first, the dash when they fail *)
Definition digits_or_dash (k : str -> str -> option R) (s : str)
  : option R :=
  match plus_greedy is_digit k s with
  | Some r => Some r
  | None => lit (L "-") (k (L "-")) s
  end.

(** [$] without the MULTILINE flag: the end of the text, or just before
    a line feed that ends it *)
Definition eol (r : R) (s : str) : option R :=
  match s with
  | [] => Some r
  | [c] => if Ascii.eqb c newline then Some r else None
  | _ => None
  end.

End Backtracking.

(** The text of the commit-header pattern in the source. *)
Definition commit_pattern_source : string :=
  "^([0-9a-fA-F]{40}) \| (.*?) \| (.+?) \| (.*)$".

(** [commit_pattern.match(line)]: the groups (hash, author, date, message)
    when the line matches. *)
Definition commit_pattern (line : str) : option (str * str * str * str) :=
  exactly 40 is_hex
    (fun h => lit (L " | ")
      (star_lazy dot
        (fun a => lit (L " | ")
          (plus_lazy dot
            (fun d => lit (L " | ")
              (star_greedy dot
                (fun m => eol (h, a, d, m)) []))))
        []))
    [] line.

(** The text of the numstat pattern in the source. *)
Definition numstat_pattern_source : string :=
  "^(\d+|-)\s+(\d+|-)\s+(.+)$".

(** [numstat_pattern.match(line)]: the groups (additions, deletions, file
    name) when the line matches. *)
Definition numstat_pattern (line : str) : option (str * str * str) :=
  digits_or_dash
    (fun a => plus_greedy is_space
      (fun _ => digits_or_dash
        (fun d => plus_greedy is_space
          (fun _ => plus_greedy dot
            (fun f => eol (a, d, f))))))
    line.

(** A captured count: digits, at least one, or the dash alone. *)
Definition is_count (s : str) : bool :=
  (truthy s && forallb is_digit s || str_eqb s (L "-"))%bool.

(** ** The log parser: the loop of [collect_commits] *)

(** A Python value that is [None] or a string: the four variables that
    carry the current commit start as [None]. *)
Inductive pyval : Type :=
| PyNone : pyval
| PyStr : str -> pyval.

Definition is_not_none (v : pyval) : bool :=
  match v with PyNone => false | PyStr _ => true end.

(** One element of [file_changes]: the dictionary appended per changed
    file. *)
Record FileChangeRecord : Type := mkRecord {
  hash : pyval;
  author : pyval;
  date : pyval;
  message : pyval;
  file : str;
  additions : str;
  deletions : str
}.

(** The variables of the loop, and what it has printed so far. *)
Record parser : Type := mkParser {
  file_changes : list FileChangeRecord;
  current_hash : pyval;
  current_author : pyval;
  current_date : pyval;
  current_message : pyval;
  printed : list str
}.

Definition parser_init : parser :=
  mkParser [] PyNone PyNone PyNone PyNone [].

Definition unknown_author : str := L "Unknown Author".

Definition unexpected_format (line : str) : str :=
  L "Unexpected format in line: " ++ line.

(** The body of [for line in log_output]. *)
Definition loop_body (st : parser) (line : str) : parser :=
  match commit_pattern line with
  | Some (h, a, d, m) =>
      mkParser (file_changes st)
               (PyStr h)
               (PyStr (if truthy a then a else unknown_author))
               (PyStr d)
               (PyStr m)
               (printed st)
  | None =>
      match numstat_pattern line, is_not_none (current_hash st) with
      | Some (adds, dels, file_name), true =>
          mkParser (file_changes st ++
                      [mkRecord (current_hash st) (current_author st)
                                (current_date st) (current_message st)
                                file_name adds dels])
                   (current_hash st) (current_author st)
                   (current_date st) (current_message st)
                   (printed st)
      | _, _ =>
          if truthy (strip line) then
            mkParser (file_changes st)
                     (current_hash st) (current_author st)
                     (current_date st) (current_message st)
                     (printed st ++ [unexpected_format line])
          else st
      end
  end.

Definition parse_from (st : parser) (log_output : list str) : parser :=
  fold_left loop_body log_output st.

Definition parse_lines (log_output : list str) : parser :=
  parse_from parser_init log_output.

(** The last line [collect_commits] prints. *)
Definition collected_summary (n : nat) : str :=
  str_of_nat n ++ L " file changes were collected...".

(** The shell command of [collect_commits], with the [replace] the source
    applies to it. *)
Definition git_log_command (temp_dir : str) : str :=
  replace_char newline (L "\n")
    (L "git -C " ++ temp_dir ++
     L " -c diff.renameLimit=10000 log --all --pretty=format:'%H | %an | %ad | %s' --numstat --date=format:'%Y-%m-%d %H:%M:%S'").

(** ** The pipeline and the world it acts on *)

Inductive exn : Type :=
| FileExistsError : str -> exn
| CalledProcessError : Z -> list str -> exn
| OSError : str -> exn.

Inductive result (A : Type) : Type :=
| Ok : A -> result A
| Raise : exn -> result A.

Arguments Ok {A} _.
Arguments Raise {A} _.

(** The calls the script makes outside itself, in order. *)
Inductive event : Type :=
| EvPrint : str -> event
| EvTime : event
| EvExists : str -> event
| EvMakedirs : str -> event
| EvRun : list str -> event
| EvGetoutput : str -> event
| EvToCsv : str -> list FileChangeRecord -> event.

Definition is_print (e : event) : bool :=
  match e with EvPrint _ => true | _ => false end.

(** An entry of the list [repos]. *)
Record repo : Type := mkRepo {
  owner : str;
  repo_name : str
}.

(** The list of repositories that were already processed. *)
Definition repos : list repo :=
  [ mkRepo (L "tensorflow") (L "tensorflow");
    mkRepo (L "keras-team") (L "keras");
    mkRepo (L "pytorch") (L "pytorch");
    mkRepo (L "microsoft") (L "vscode");
    mkRepo (L "microsoft") (L "PowerToys");
    mkRepo (L "facebook") (L "react");
    mkRepo (L "facebook") (L "react-native");
    mkRepo (L "facebook") (L "create-react-app");
    mkRepo (L "home-assistant") (L "core");
    mkRepo (L "flutter") (L "flutter");
    mkRepo (L "microsoftdocs") (L "azure-docs");
    mkRepo (L "automatic1111") (L "stable-diffusion-webui");
    mkRepo (L "vercel") (L "next.js");
    mkRepo (L "langchain-ai") (L "langchain") ].

(** The file system, the clock and the processes the script talks to. *)
Class Host : Type := {
  World : Type;
  Instant : Type;
  (** [TOKEN], not [None] once the module has loaded *)
  TOKEN : str;
  (** [os.path.exists] *)
  path_exists : str -> World -> bool;
  (** [os.makedirs] *)
  makedirs : str -> World -> exn + World;
  (** [subprocess.run(argv)]: the exit status *)
  subprocess_run : list str -> World -> Z * World;
  (** [subprocess.getoutput(cmd)] *)
  subprocess_getoutput : str -> World -> str * World;
  (** [pd.DataFrame(rows).to_csv(path, index=False)] *)
  to_csv : str -> list FileChangeRecord -> World -> exn + World;
  (** [time.time()], and the text of [f"{end - start:.2f}"] *)
  time_now : World -> Instant;
  elapsed_2f : Instant -> Instant -> str
}.

Section Pipeline.

Context {host : Host}.

(** The world, and the calls made so far. *)
Record env : Type := mkEnv {
  world : World;
  calls : list event
}.

(** State and exceptions. *)
Definition M (A : Type) : Type := env -> result A * env.

Definition ret {A} (a : A) : M A := fun e => (Ok a, e).

Definition bind {A B} (m : M A) (f : A -> M B) : M B :=
  fun e =>
    match m e with
    | (Ok a, e') => f a e'
    | (Raise x, e') => (Raise x, e')
    end.

Definition raise {A} (x : exn) : M A := fun e => (Raise x, e).

Notation "x <- m ;; k" := (bind m (fun x => k))
  (at level 61, m at next level, right associativity).
Notation "m ;; k" := (bind m (fun _ => k))
  (at level 61, right associativity).

Definition emit (ev : event) : M unit :=
  fun e => (Ok tt, mkEnv (world e) (calls e ++ [ev])).

Definition print (s : str) : M unit := emit (EvPrint s).

Definition time_time : M Instant :=
  fun e => (Ok (time_now (world e)), mkEnv (world e) (calls e ++ [EvTime])).

Definition os_path_exists (p : str) : M bool :=
  fun e =>
    (Ok (path_exists p (world e)), mkEnv (world e) (calls e ++ [EvExists p])).

Definition os_makedirs (p : str) : M unit :=
  fun e =>
    match makedirs p (world e) with
    | inl x => (Raise x, mkEnv (world e) (calls e ++ [EvMakedirs p]))
    | inr w => (Ok tt, mkEnv w (calls e ++ [EvMakedirs p]))
    end.

(** [subprocess.run(argv, check=True)] *)
Definition run_checked (argv : list str) : M unit :=
  fun e =>
    let (status, w) := subprocess_run argv (world e) in
    let e' := mkEnv w (calls e ++ [EvRun argv]) in
    if Z.eqb status 0 then (Ok tt, e')
    else (Raise (CalledProcessError status argv), e').

Definition getoutput (cmd : str) : M str :=
  fun e =>
    let (out, w) := subprocess_getoutput cmd (world e) in
    (Ok out, mkEnv w (calls e ++ [EvGetoutput cmd])).

Definition dataframe_to_csv (path : str) (rows : list FileChangeRecord)
  : M unit :=
  fun e =>
    match to_csv path rows (world e) with
    | inl x => (Raise x, mkEnv (world e) (calls e ++ [EvToCsv path rows]))
    | inr w => (Ok tt, mkEnv w (calls e ++ [EvToCsv path rows]))
    end.

Fixpoint print_all (ls : list str) : M unit :=
  match ls with
  | [] => ret tt
  | l :: ls' => print l ;; print_all ls'
  end.

Fixpoint repo_already_existing (owner0 repo_name0 : str)
         (repo_list : list repo) : M bool :=
  match repo_list with
  | [] => ret false
  | r :: rest =>
      if (str_eqb (owner r) owner0 && str_eqb (repo_name r) repo_name0)%bool
      then ret true
      else if str_eqb (repo_name r) repo_name0
      then print (L "Project name already exists") ;;
           repo_already_existing owner0 repo_name0 rest
      else repo_already_existing owner0 repo_name0 rest
  end.

Definition directory_conflict (temp_dir : str) : exn :=
  FileExistsError
    (L "'" ++ temp_dir ++
     L "' already exists. Please provide a different path or remove the directory.").

Definition clone_repo (repo_owner repo_name0 temp_dir : str) : M unit :=
  b <- os_path_exists temp_dir ;;
  (if b : bool then raise (directory_conflict temp_dir)
   else os_makedirs temp_dir) ;;
  let repo_url :=
    L "https://" ++ TOKEN ++ L "@github.com/" ++ repo_owner ++ L "/"
      ++ repo_name0 in
  run_checked [L "git"; L "clone"; L "--mirror"; repo_url; temp_dir].

(** The loop prints its diagnostics as it goes; here the loop runs as the
    pure [parse_lines] and its output is printed right after, in the same
    order and before the summary, which gives the same sequence of calls. *)
Definition collect_commits (temp_dir : str)
  : M (list FileChangeRecord) :=
  out <- getoutput (git_log_command temp_dir) ;;
  let log_output := split_on newline out in
  let st := parse_lines log_output in
  print_all (printed st) ;;
  print (collected_summary (List.length (file_changes st))) ;;
  ret (file_changes st).

(** What [get_commit_history_as_csv] does once the guard has let the
    pair through. *)
Definition process_repo (repo_owner repo_name0 : str) : M unit :=
  start_time <- time_time ;;
  let temp_dir := L "temp_repo" in
  clone_repo repo_owner repo_name0 temp_dir ;;
  complete_commit_history <- collect_commits temp_dir ;;
  dataframe_to_csv
    (L "./data/" ++ repo_name0 ++ L "_commit_history.csv")
    complete_commit_history ;;
  run_checked [L "rm"; L "-rf"; temp_dir] ;;
  end_time <- time_time ;;
  print (L "##### Collecting data from " ++ repo_name0 ++ L " took "
           ++ elapsed_2f start_time end_time ++ L " seconds. #####").

Definition get_commit_history_as_csv (repo_owner repo_name0 : str)
  : M unit :=
  print ([newline] ++ L "##### Collecting Data for " ++ repo_name0
           ++ L " Repository #####") ;;
  b <- repo_already_existing repo_owner repo_name0 repos ;;
  if b : bool then
    print (L "Repo has already been processed -> Exit function")
  else process_repo repo_owner repo_name0.



End Pipeline.

(** ** The vocabulary of the properties *)

(** The four values a header line leaves in the carried variables: its
    captures, with the sentinel in place of an empty author. *)
Definition header_fields (line : str)
  : option (pyval * pyval * pyval * pyval) :=
  match commit_pattern line with
  | Some (h, a, d, m) =>
      Some (PyStr h,
            PyStr (match a with [] => L "Unknown Author" | _ :: _ => a end),
            PyStr d, PyStr m)
  | None => None
  end.

(** The header fields of the most recent header line among [lines]. *)
Fixpoint last_header (lines : list str)
  : option (pyval * pyval * pyval * pyval) :=
  match lines with
  | [] => None
  | l :: rest =>
      match last_header rest with
      | Some x => Some x
      | None => header_fields l
      end
  end.

Definition is_some {A} (o : option A) : bool :=
  match o with Some _ => true | None => false end.

(** Line [i] has the numstat shape and comes after a header. *)
Definition follows_header (lines : list str) (i : nat) : bool :=
  (is_some (numstat_pattern (nth i lines []))
   && is_some (last_header (firstn i lines)))%bool.

(** What line [i] contributes: one record, with the fields of the most
    recent header before it, when it has the numstat shape and such a
    header exists; nothing otherwise. *)
Definition record_at (lines : list str) (i : nat) : list FileChangeRecord :=
  match numstat_pattern (nth i lines []), last_header (firstn i lines) with
  | Some (adds, dels, file_name), Some (h, a, d, m) =>
      [mkRecord h a d m file_name adds dels]
  | _, _ => []
  end.

Definition inherited_records (lines : list str) : list FileChangeRecord :=
  flat_map (record_at lines) (seq 0 (List.length lines)).

(** The carried variables of the loop. *)
Definition carried (st : parser) : pyval * pyval * pyval * pyval :=
  (current_hash st, current_author st, current_date st, current_message st).

Definition header_of (r : FileChangeRecord)
  : pyval * pyval * pyval * pyval :=
  (hash r, author r, date r, message r).

Definition no_header : pyval * pyval * pyval * pyval :=
  (PyNone, PyNone, PyNone, PyNone).

(** A parser that differs from [st] by one more diagnostic. *)
Definition with_diagnostic (st : parser) (line : str) : parser :=
  mkParser (file_changes st)
           (current_hash st) (current_author st)
           (current_date st) (current_message st)
           (printed st ++ [unexpected_format line]).

(** Forty hexadecimal digits. *)
Definition is_hash (v : pyval) : bool :=
  match v with
  | PyStr h => (Nat.eqb (List.length h) 40 && forallb is_hex h)%bool
  | PyNone => false
  end.

(** A string, and not the empty one. *)
Definition is_nonempty_text (v : pyval) : bool :=
  match v with
  | PyStr s => truthy s
  | PyNone => false
  end.



(** The entry of the list that stops the guard for a pair. *)
Definition same_repo (owner0 repo_name0 : str) (r : repo) : bool :=
  (str_eqb (owner r) owner0 && str_eqb (repo_name r) repo_name0)%bool.

(** ** Sample inputs *)

Definition sample_hash : str := L "0123456789abcdef0123456789ABCDEF01234567".

Definition other_hash : str := L "ffffffffffffffffffffffffffffffffffffffff".

Definition sample_header : str :=
  sample_hash ++ L " | Ada | 2024-01-01 00:00:00 | fix bug".

Definition other_header : str :=
  other_hash ++ L " | Bob | 2024-01-02 00:00:00 | merge".

Definition anonymous_header : str :=
  sample_hash ++ L " |  | 2024-01-01 00:00:00 | fix bug".

Definition sample_numstat : str :=
  L "5" ++ [tab] ++ L "2" ++ [tab] ++ L "foo.txt".

Definition binary_numstat : str :=
  L "-" ++ [tab] ++ L "-" ++ [tab] ++ L "binary.png".

(** A log whose only commit has a message of two lines. *)
Definition two_line_message_log : str :=
  sample_hash ++ L " | Ada | 2024-01-01 00:00:00 | fix bug" ++ [newline]
    ++ L "second line" ++ [newline] ++ sample_numstat.

(** A small host: the world is the list of the paths that exist, every
    process succeeds, and the log command prints [log]. *)
Definition toy_host (log : str) : Host :=
  {| World := list str;
     Instant := nat;
     TOKEN := L "token";
     path_exists := fun p w => existsb (str_eqb p) w;
     makedirs := fun p w => inr (p :: w);
     subprocess_run := fun _ w => (0%Z, w);
     subprocess_getoutput := fun _ w => (log, w);
     to_csv := fun _ _ w => inr w;
     time_now := fun _ => 0;
     elapsed_2f := fun _ _ => L "0.00" |}.

(** ** Further vocabulary *)

(** A character other than the bar. *)
Definition no_bar (c : ascii) : bool := negb (Ascii.eqb c "|"%char).

(** [sep.join(pieces)] *)
Fixpoint join (sep : ascii) (pieces : list str) : str :=
  match pieces with
  | [] => []
  | p :: rest =>
      match rest with
      | [] => p
      | _ :: _ => p ++ sep :: join sep rest
      end
  end.

Definition is_header (line : str) : bool := is_some (commit_pattern line).

Definition is_blank (line : str) : bool := negb (truthy (strip line)).

(** What the loop prints for line [i]: a diagnostic when the line is not
    blank, is not a header, and is not a numstat line that comes after a
    header. *)
Definition diagnostic_at (lines : list str) (i : nat) : list str :=
  let line := nth i lines [] in
  if (negb (is_blank line) && negb (is_header line)
      && negb (follows_header lines i))%bool
  then [unexpected_format line]
  else [].

Definition diagnostics (lines : list str) : list str :=
  flat_map (diagnostic_at lines) (seq 0 (List.length lines)).

(** A string without a line feed. *)
Definition clean_text (v : pyval) : bool :=
  match v with
  | PyStr s => forallb dot s
  | PyNone => false
  end.

(** Every field is a string without a line feed, and the date is not
    empty. *)
Definition clean_record (r : FileChangeRecord) : bool :=
  (clean_text (hash r) && clean_text (author r)
   && clean_text (date r) && is_nonempty_text (date r)
   && clean_text (message r)
   && forallb dot (file r) && forallb dot (additions r)
   && forallb dot (deletions r))%bool.

(** A call that is not a print. *)
Definition is_external (ev : event) : bool := negb (is_print ev).

Definition sample_log : str :=
  sample_header ++ [newline] ++ sample_numstat ++ [newline].

(** A host on which [git] exits with [clone_status] and the export
    succeeds or not; everything else is as on [toy_host]. *)
Definition flaky_host (clone_status : Z) (export_ok : bool) : Host :=
  {| World := list str;
     Instant := nat;
     TOKEN := L "token";
     path_exists := fun p w => existsb (str_eqb p) w;
     makedirs := fun p w => inr (p :: w);
     subprocess_run := fun argv w =>
       match argv with
       | cmd :: _ =>
           if str_eqb cmd (L "git") then (clone_status, w) else (0%Z, w)
       | [] => (0%Z, w)
       end;
     subprocess_getoutput := fun _ w => (sample_log, w);
     to_csv := fun path _ w =>
       if export_ok then inr w else inl (OSError path);
     time_now := fun _ => 0;
     elapsed_2f := fun _ _ => L "0.00" |}.

(** What the loop keeps true of line feeds: none in a record, none in the
    carried fields once a header has been seen. *)
Definition parser_clean (st : parser) : Prop :=
  forallb clean_record (file_changes st) = true /\
  (is_not_none (current_hash st) = true ->
   clean_text (current_hash st) = true /\
   clean_text (current_author st) = true /\
   clean_text (current_date st) = true /\
   is_nonempty_text (current_date st) = true /\
   clean_text (current_message st) = true).

Section PipelineVocabulary.

Context {host : Host}.

(** The command [clone_repo] runs. *)
Definition clone_command (repo_owner repo_name0 temp_dir : str) : list str :=
  [L "git"; L "clone"; L "--mirror";
   L "https://" ++ TOKEN ++ L "@github.com/" ++ repo_owner ++ L "/"
     ++ repo_name0;
   temp_dir].

(** The command that removes the clone. *)
Definition cleanup_command (temp_dir : str) : list str :=
  [L "rm"; L "-rf"; temp_dir].

(** Where the rows of a repository are written. *)
Definition csv_path (repo_name0 : str) : str :=
  L "./data/" ++ repo_name0 ++ L "_commit_history.csv".

(** The calls of [process_repo] from the start to the end of the
    extraction, when the clone succeeds. *)
Definition calls_until_export (repo_owner name0 : str) (out : str)
  : list event :=
  [EvTime; EvExists (L "temp_repo"); EvMakedirs (L "temp_repo");
   EvRun (clone_command repo_owner name0 (L "temp_repo"));
   EvGetoutput (git_log_command (L "temp_repo"))]
  ++ map EvPrint (diagnostics (split_on newline out))
  ++ [EvPrint (collected_summary
                 (List.length (inherited_records (split_on newline out))))].

End PipelineVocabulary.

(** * Properties *)

(** ** Characters and text *)

Lemma ascii_eqb_true (c d : ascii) : Ascii.eqb c d = true -> c = d.
Proof. apply Ascii.eqb_eq. Qed.

Lemma str_eqb_eq (a b : str) : str_eqb a b = true <-> a = b.
Proof.
  revert b; induction a as [|x a IH]; intros [|y b]; simpl;
    try (split; (discriminate || reflexivity)).
  rewrite andb_true_iff, Ascii.eqb_eq, IH.
  split; [intros [-> ->]; reflexivity | intros E; inversion E; auto].
Qed.

Lemma str_eqb_refl (a : str) : str_eqb a a = true.
Proof. apply str_eqb_eq; reflexivity. Qed.

Ltac by_cases_on_char c :=
  destruct c as [[] [] [] [] [] [] [] []]; vm_compute; congruence.

Lemma hex_not_space (c : ascii) : is_hex c = true -> is_space c = false.
Proof. by_cases_on_char c. Qed.

Lemma digit_is_hex (c : ascii) : is_digit c = true -> is_hex c = true.
Proof. by_cases_on_char c. Qed.

Lemma digit_not_space (c : ascii) : is_digit c = true -> is_space c = false.
Proof. intros H; apply hex_not_space, digit_is_hex, H. Qed.

Lemma space_not_bar (c : ascii) :
  is_space c = true -> c <> "|"%char.
Proof. by_cases_on_char c. Qed.

Lemma digit_not_blank (c : ascii) :
  is_digit c = true -> c <> " "%char.
Proof. by_cases_on_char c. Qed.

Lemma forallb_app_inv {A} (p : A -> bool) (l1 l2 : list A) :
  forallb p (l1 ++ l2) = true ->
  forallb p l1 = true /\ forallb p l2 = true.
Proof. rewrite forallb_app, andb_true_iff; auto. Qed.

(** [lstrip] removes a run of white space from the front. *)
Lemma lstrip_split (s : str) :
  exists pre, s = pre ++ lstrip s /\ forallb is_space pre = true.
Proof.
  induction s as [|c s [pre [E F]]]; simpl.
  - exists []; auto.
  - destruct (is_space c) eqn:Hc.
    + exists (c :: pre); simpl; rewrite Hc, F; split; [f_equal; exact E | reflexivity].
    + exists []; auto.
Qed.

Lemma lstrip_nil_iff (s : str) :
  lstrip s = [] <-> forallb is_space s = true.
Proof.
  induction s as [|c s IH]; simpl; [tauto|].
  destruct (is_space c); simpl; [exact IH|].
  split; discriminate.
Qed.

Lemma forallb_rev {A} (p : A -> bool) (l : list A) :
  forallb p (rev l) = forallb p l.
Proof.
  induction l as [|x l IH]; simpl; [reflexivity|].
  rewrite forallb_app, IH; simpl. rewrite andb_true_r, andb_comm; reflexivity.
Qed.

(** A line is empty after [strip] exactly when it is all white space. *)
Lemma strip_nil_iff (s : str) :
  strip s = [] <-> forallb is_space s = true.
Proof.
  unfold strip, rstrip.
  destruct (lstrip_split s) as [pre [E F]].
  split.
  - intros H.
    assert (H1 : lstrip (rev (lstrip s)) = []).
    { rewrite <- (rev_involutive (lstrip (rev (lstrip s)))), H.
      reflexivity. }
    apply lstrip_nil_iff in H1. rewrite forallb_rev in H1.
    rewrite E, forallb_app, F, H1; reflexivity.
  - intros H. rewrite E in H. apply forallb_app_inv in H as [_ H].
    rewrite <- forallb_rev in H. apply lstrip_nil_iff in H.
    rewrite H; reflexivity.
Qed.

Lemma truthy_strip (s : str) :
  truthy (strip s) = negb (forallb is_space s).
Proof.
  destruct (forallb is_space s) eqn:F.
  - apply strip_nil_iff in F. rewrite F; reflexivity.
  - destruct (strip s) eqn:E; [|reflexivity].
    apply strip_nil_iff in E. congruence.
Qed.

Lemma truthy_strip_starts (c : ascii) (s : str) :
  is_space c = false -> truthy (strip (c :: s)) = true.
Proof. intros H; rewrite truthy_strip; simpl; rewrite H; reflexivity. Qed.

(** The pieces of [split] hold no separator. *)
Lemma split_on_no_sep (sep : ascii) (s : str) :
  Forall (fun l => forallb (fun c => negb (Ascii.eqb c sep)) l = true)
         (split_on sep s).
Proof.
  induction s as [|c s IH]; simpl.
  - repeat constructor.
  - destruct (Ascii.eqb c sep) eqn:E.
    + constructor; [reflexivity | exact IH].
    + destruct (split_on sep s) as [|l ls].
      * repeat constructor; simpl; rewrite E; reflexivity.
      * inversion IH; subst. constructor; [|assumption].
        simpl; rewrite E; assumption.
Qed.

(** [replace] leaves a text without the old character as it is. *)
Lemma replace_char_absent (old : ascii) (new s : str) :
  forallb (fun c => negb (Ascii.eqb c old)) s = true ->
  replace_char old new s = s.
Proof.
  unfold replace_char; induction s as [|c s IH]; simpl; [reflexivity|].
  rewrite andb_true_iff; intros [Hc Hs].
  destruct (Ascii.eqb c old); [discriminate|].
  simpl; rewrite IH by assumption; reflexivity.
Qed.

(** ** The matchers: what a successful match says about the text *)

Section BacktrackingFacts.

Variable R : Type.
Implicit Types (k : str -> str -> option R) (r : R).

Lemma lit_inv (l : str) (k1 : str -> option R) (s : str) r :
  lit l k1 s = Some r -> exists s', s = l ++ s' /\ k1 s' = Some r.
Proof.
  revert s; induction l as [|c l IH]; simpl; intros s H.
  - exists s; auto.
  - destruct s as [|d s]; [discriminate|].
    destruct (Ascii.eqb c d) eqn:E; [|discriminate].
    apply ascii_eqb_true in E; subst d.
    destruct (IH _ H) as [s' [-> K]]. exists s'; auto.
Qed.

Lemma lit_complete (l : str) (k1 : str -> option R) (s : str) :
  lit l k1 (l ++ s) = k1 s.
Proof.
  induction l as [|c l IH]; simpl; [reflexivity|].
  rewrite Ascii.eqb_refl; exact IH.
Qed.

Lemma exactly_inv (n : nat) p k (acc s : str) r :
  exactly n p k acc s = Some r ->
  exists c rest, s = c ++ rest /\ List.length c = n /\
                 forallb p c = true /\ k (acc ++ c) rest = Some r.
Proof.
  revert acc s; induction n as [|n IH]; simpl; intros acc s H.
  - exists [], s; rewrite !app_nil_r; auto.
  - destruct s as [|x s]; [discriminate|].
    destruct (p x) eqn:Px; [|discriminate].
    destruct (IH _ _ H) as [c [rest [-> [Len [F K]]]]].
    exists (x :: c), rest; simpl; rewrite Px, F, Len.
    rewrite <- app_assoc in K; auto.
Qed.

Lemma star_greedy_inv p k (acc s : str) r :
  star_greedy p k acc s = Some r ->
  exists c rest, s = c ++ rest /\ forallb p c = true /\
                 k (acc ++ c) rest = Some r.
Proof.
  revert acc; induction s as [|x s IH]; simpl; intros acc H.
  - exists [], []; rewrite !app_nil_r; auto.
  - assert (Stop : k acc (x :: s) = Some r ->
                   exists c rest, x :: s = c ++ rest /\
                     forallb p c = true /\ k (acc ++ c) rest = Some r).
    { intros K; exists [], (x :: s); rewrite !app_nil_r; auto. }
    destruct (p x) eqn:Px; [|auto].
    destruct (star_greedy p k (acc ++ [x]) s) eqn:G; [|auto].
    inversion H; subst r0.
    destruct (IH _ G) as [c [rest [-> [F K]]]].
    exists (x :: c), rest; simpl; rewrite Px, F.
    rewrite <- app_assoc in K; auto.
Qed.

Lemma plus_greedy_inv p k (s : str) r :
  plus_greedy p k s = Some r ->
  exists c rest, s = c ++ rest /\ c <> [] /\ forallb p c = true /\
                 k c rest = Some r.
Proof.
  unfold plus_greedy; destruct s as [|x s]; [discriminate|].
  destruct (p x) eqn:Px; [|discriminate]. intros H.
  destruct (star_greedy_inv _ _ _ _ H) as [c [rest [-> [F K]]]].
  exists (x :: c), rest; simpl; rewrite Px, F.
  repeat split; auto; discriminate.
Qed.

Lemma star_lazy_inv p k (acc s : str) r :
  star_lazy p k acc s = Some r ->
  exists c rest, s = c ++ rest /\ forallb p c = true /\
                 k (acc ++ c) rest = Some r.
Proof.
  revert acc; induction s as [|x s IH]; simpl; intros acc H.
  - destruct (k acc []) eqn:K; [|discriminate].
    inversion H; subst. exists [], []; rewrite !app_nil_r; auto.
  - destruct (k acc (x :: s)) eqn:K.
    + inversion H; subst.
      exists [], (x :: s); rewrite !app_nil_r; auto.
    + destruct (p x) eqn:Px; [|discriminate].
      destruct (IH _ H) as [c [rest [-> [F K']]]].
      exists (x :: c), rest; simpl; rewrite Px, F.
      rewrite <- app_assoc in K'; auto.
Qed.

Lemma plus_lazy_inv p k (s : str) r :
  plus_lazy p k s = Some r ->
  exists c rest, s = c ++ rest /\ c <> [] /\ forallb p c = true /\
                 k c rest = Some r.
Proof.
  unfold plus_lazy; destruct s as [|x s]; [discriminate|].
  destruct (p x) eqn:Px; [|discriminate]. intros H.
  destruct (star_lazy_inv _ _ _ _ H) as [c [rest [-> [F K]]]].
  exists (x :: c), rest; simpl; rewrite Px, F.
  repeat split; auto; discriminate.
Qed.

Lemma eol_inv r r' (s : str) :
  eol r s = Some r' -> r' = r /\ (s = [] \/ s = [newline]).
Proof.
  unfold eol; destruct s as [|c [|d s]]; try discriminate.
  - intros H; inversion H; auto.
  - destruct (Ascii.eqb c newline) eqn:E; [|discriminate].
    apply ascii_eqb_true in E; subst c.
    intros H; inversion H; auto.
Qed.

End BacktrackingFacts.

Lemma digits_or_dash_inv (R : Type) (k : str -> str -> option R)
      (s : str) (r : R) :
  digits_or_dash k s = Some r ->
  exists c rest, s = c ++ rest /\ is_count c = true /\ k c rest = Some r.
Proof.
  unfold digits_or_dash. destruct (plus_greedy is_digit k s) eqn:G.
  - intros H; inversion H; subst.
    destruct (plus_greedy_inv _ _ _ G) as [c [rest [-> [Ne [F K]]]]].
    exists c, rest; unfold is_count. rewrite F.
    destruct c; [congruence | auto].
  - intros H. destruct (lit_inv _ _ _ H) as [s' [-> K]].
    exists (L "-"), s'; auto.
Qed.

(** A matched header is the hash, the three separators and the captures,
    and nothing else but a possible final line feed. *)
Lemma commit_pattern_inv (line h a d m : str) :
  commit_pattern line = Some (h, a, d, m) ->
  exists tail,
    line = h ++ L " | " ++ a ++ L " | " ++ d ++ L " | " ++ m ++ tail /\
    List.length h = 40 /\ forallb is_hex h = true /\
    forallb dot a = true /\
    d <> [] /\ forallb dot d = true /\
    forallb dot m = true /\
    (tail = [] \/ tail = [newline]).
Proof.
  unfold commit_pattern; intros H.
  destruct (exactly_inv _ _ _ _ _ H) as [h' [r1 [-> [Lh [Fh H1]]]]].
  destruct (lit_inv _ _ _ H1) as [r2 [-> H2]].
  destruct (star_lazy_inv _ _ _ _ H2) as [a' [r3 [-> [Fa H3]]]].
  destruct (lit_inv _ _ _ H3) as [r4 [-> H4]].
  destruct (plus_lazy_inv _ _ _ H4) as [d' [r5 [-> [Nd [Fd H5]]]]].
  destruct (lit_inv _ _ _ H5) as [r6 [-> H6]].
  destruct (star_greedy_inv _ _ _ _ H6) as [m' [r7 [-> [Fm H7]]]].
  destruct (eol_inv _ _ H7) as [E T].
  simpl in E; inversion E; subst.
  exists r7; repeat split; auto.
Qed.

(** A matched numstat line is the two counts, each followed by white
    space, and the file name. *)
Lemma numstat_pattern_inv (line a d f : str) :
  numstat_pattern line = Some (a, d, f) ->
  exists w1 w2 tail,
    line = a ++ w1 ++ d ++ w2 ++ f ++ tail /\
    is_count a = true /\ is_count d = true /\
    w1 <> [] /\ forallb is_space w1 = true /\
    w2 <> [] /\ forallb is_space w2 = true /\
    f <> [] /\ forallb dot f = true /\
    (tail = [] \/ tail = [newline]).
Proof.
  unfold numstat_pattern; intros H.
  destruct (digits_or_dash_inv _ _ H) as [a' [r1 [-> [Ca H1]]]].
  destruct (plus_greedy_inv _ _ _ H1) as [w1 [r2 [-> [N1 [F1 H2]]]]].
  destruct (digits_or_dash_inv _ _ H2) as [d' [r3 [-> [Cd H3]]]].
  destruct (plus_greedy_inv _ _ _ H3) as [w2 [r4 [-> [N2 [F2 H4]]]]].
  destruct (plus_greedy_inv _ _ _ H4) as [f' [r5 [-> [Nf [Ff H5]]]]].
  destruct (eol_inv _ _ H5) as [E T].
  inversion E; subst.
  exists w1, w2, r5; repeat split; auto.
Qed.

(** The first character of a count is a digit or the dash, so it is
    neither white space nor the bar. *)
Lemma is_count_head (s : str) :
  is_count s = true ->
  exists c s', s = c :: s' /\
               (is_digit c = true \/ c = "-"%char).
Proof.
  unfold is_count; rewrite orb_true_iff, andb_true_iff.
  intros [[T F] | E].
  - destruct s as [|c s']; [discriminate|].
    simpl in F; apply andb_true_iff in F as [Fc _].
    exists c, s'; auto.
  - apply str_eqb_eq in E; subst. exists ("-"%char), []; auto.
Qed.

Lemma count_head_not_space (c : ascii) :
  is_digit c = true \/ c = "-"%char -> is_space c = false.
Proof. intros [H | ->]; [apply digit_not_space, H | reflexivity]. Qed.

Lemma count_head_not_bar (c : ascii) :
  is_digit c = true \/ c = "-"%char -> c <> "|"%char.
Proof.
  intros [H | ->]; [|discriminate].
  intros ->; discriminate.
Qed.

(** The digits of a count that starts with a digit. *)
Lemma is_count_digits (c : ascii) (s : str) :
  is_count (c :: s) = true -> is_digit c = true ->
  forallb is_digit (c :: s) = true.
Proof.
  unfold is_count; rewrite orb_true_iff; intros [H | H] Hc.
  - apply andb_true_iff in H as [_ H]; exact H.
  - apply str_eqb_eq in H. inversion H; subst. discriminate.
Qed.

(** No line is both a header and a numstat line: after the forty
    hexadecimal digits a header goes on with a blank and a bar, where a
    numstat line needs white space and then a digit or a dash. *)
Lemma patterns_exclusive (line : str) :
  commit_pattern line <> None -> numstat_pattern line = None.
Proof.
  intros Hc.
  destruct (commit_pattern line) as [[[[h a] d] m]|] eqn:C; [|congruence].
  destruct (numstat_pattern line) as [[[x y] f]|] eqn:N; [|reflexivity].
  exfalso.
  destruct (commit_pattern_inv _ C) as [t [E [Lh [Fh _]]]].
  destruct (numstat_pattern_inv _ N)
    as [w1 [w2 [t' [E' [Cx [Cy [N1 [F1 _]]]]]]]].
  destruct (is_count_head _ Cx) as [c [x' [-> Hc0]]].
  destruct h as [|h0 h']; [discriminate|].
  rewrite E in E'; simpl in E'. inversion E' as [[E0 E1]]. subst h0.
  simpl in Fh. apply andb_true_iff in Fh as [Fc Fh].
  destruct Hc0 as [Dc | ->]; [|discriminate].
  pose proof (is_count_digits _ _ Cx Dc) as Dx.
  simpl in Dx. apply andb_true_iff in Dx as [_ Dx].
  clear C N E E' Cx Dc Fc Lh Hc.
  revert x' Dx E1.
  induction h' as [|h1 h' IH]; intros x' Dx E1.
  - (* the hash is over: the count must be over too *)
    destruct x' as [|x0 x']; simpl in E1.
    + destruct w1 as [|s0 w1]; [congruence|].
      simpl in E1; inversion E1 as [[S0 E2]]; clear E1.
      destruct w1 as [|s1 w1]; simpl in E2.
      * destruct (is_count_head _ Cy) as [c' [y' [-> Hy]]].
        simpl in E2; inversion E2 as [[B _]].
        apply count_head_not_bar in Hy. congruence.
      * inversion E2 as [[B _]].
        simpl in F1. apply andb_true_iff in F1 as [_ F1].
        apply andb_true_iff in F1 as [F1 _].
        apply space_not_bar in F1. congruence.
    + inversion E1 as [[B _]].
      simpl in Dx. apply andb_true_iff in Dx as [Dx _].
      apply digit_not_blank in Dx. congruence.
  - simpl in Fh. apply andb_true_iff in Fh as [F1h Fh].
    destruct x' as [|x0 x']; simpl in E1.
    + destruct w1 as [|s0 w1]; [congruence|].
      simpl in E1; inversion E1 as [[S0 _]].
      simpl in F1. apply andb_true_iff in F1 as [F1 _].
      apply hex_not_space in F1h. congruence.
    + inversion E1 as [[B E2]].
      simpl in Dx. apply andb_true_iff in Dx as [_ Dx].
      apply (IH Fh x' Dx E2).
Qed.

(** ** The loop body, case by case *)

Lemma loop_body_header (st : parser) (line h a d m : str) :
  commit_pattern line = Some (h, a, d, m) ->
  loop_body st line =
    mkParser (file_changes st) (PyStr h)
             (PyStr (if truthy a then a else unknown_author))
             (PyStr d) (PyStr m) (printed st).
Proof. intros H; unfold loop_body; rewrite H; reflexivity. Qed.

Lemma loop_body_numstat (st : parser) (line a d f : str) :
  numstat_pattern line = Some (a, d, f) ->
  is_not_none (current_hash st) = true ->
  loop_body st line =
    mkParser (file_changes st ++
                [mkRecord (current_hash st) (current_author st)
                          (current_date st) (current_message st) f a d])
             (current_hash st) (current_author st)
             (current_date st) (current_message st) (printed st).
Proof.
  intros N H; unfold loop_body.
  destruct (commit_pattern line) eqn:C.
  - rewrite patterns_exclusive in N by congruence. discriminate.
  - rewrite N, H; reflexivity.
Qed.

Lemma loop_body_unmatched (st : parser) (line : str) :
  commit_pattern line = None ->
  numstat_pattern line = None \/ current_hash st = PyNone ->
  loop_body st line =
    if truthy (strip line) then with_diagnostic st line else st.
Proof.
  intros C H; unfold loop_body; rewrite C.
  destruct H as [N | N]; [rewrite N; reflexivity|].
  replace (is_not_none (current_hash st)) with false
    by (rewrite N; reflexivity).
  destruct (numstat_pattern line) as [[[a d] f]|]; reflexivity.
Qed.

Lemma unmatched_file_changes (st : parser) (line : str) (b : bool) :
  file_changes (if b then with_diagnostic st line else st) = file_changes st.
Proof. destruct b; reflexivity. Qed.

Lemma unmatched_carried (st : parser) (line : str) (b : bool) :
  carried (if b then with_diagnostic st line else st) = carried st.
Proof. destruct b; reflexivity. Qed.

Lemma parse_from_app (st : parser) (l1 l2 : list str) :
  parse_from st (l1 ++ l2) = parse_from (parse_from st l1) l2.
Proof. apply fold_left_app. Qed.

Lemma parse_lines_snoc (pre : list str) (line : str) :
  parse_lines (pre ++ [line]) = loop_body (parse_lines pre) line.
Proof. unfold parse_lines; rewrite parse_from_app; reflexivity. Qed.

(** A numstat line is not blank: it starts with a digit or a dash. *)
Lemma numstat_not_blank (line : str) :
  numstat_pattern line <> None -> truthy (strip line) = true.
Proof.
  destruct (numstat_pattern line) as [[[a d] f]|] eqn:N; [|congruence].
  intros _.
  apply numstat_pattern_inv in N as [w1 [w2 [t [E [Ca _]]]]].
  apply is_count_head in Ca as [c [a' [-> Hc]]].
  subst line; simpl. apply truthy_strip_starts, count_head_not_space, Hc.
Qed.

(** A header is not blank either. *)
Lemma header_not_blank (line : str) :
  commit_pattern line <> None -> truthy (strip line) = true.
Proof.
  destruct (commit_pattern line) as [[[[h a] d] m]|] eqn:C; [|congruence].
  intros _.
  apply commit_pattern_inv in C as [t [E [Lh [Fh _]]]].
  destruct h as [|c h]; [discriminate|].
  simpl in Fh; apply andb_true_iff in Fh as [Fc _].
  subst line; simpl. apply truthy_strip_starts, hex_not_space, Fc.
Qed.

(** ** Headers and the records that follow them *)

Lemma author_or_sentinel (a : str) :
  (if truthy a then a else unknown_author) =
  match a with [] => L "Unknown Author" | _ :: _ => a end.
Proof. destruct a; reflexivity. Qed.

Lemma last_header_snoc (pre : list str) (line : str) :
  last_header (pre ++ [line]) =
  match header_fields line with
  | Some x => Some x
  | None => last_header pre
  end.
Proof.
  induction pre as [|l pre IH]; simpl.
  - destruct (header_fields line); reflexivity.
  - rewrite IH. destruct (header_fields line); reflexivity.
Qed.

Lemma header_fields_hash (line : str) (h a d m : pyval) :
  header_fields line = Some (h, a, d, m) -> is_not_none h = true.
Proof.
  unfold header_fields.
  destruct (commit_pattern line) as [[[[h' a'] d'] m']|]; [|discriminate].
  intros H; inversion H; reflexivity.
Qed.

Lemma last_header_hash (lines : list str) (h a d m : pyval) :
  last_header lines = Some (h, a, d, m) -> is_not_none h = true.
Proof.
  induction lines as [|l lines IH]; simpl; [discriminate|].
  destruct (last_header lines) as [x|].
  - intros H; inversion H; subst; auto.
  - apply header_fields_hash.
Qed.

Lemma record_at_snoc_old (pre : list str) (line : str) (i : nat) :
  i < List.length pre -> record_at (pre ++ [line]) i = record_at pre i.
Proof.
  intros Hi; unfold record_at.
  rewrite app_nth1 by assumption.
  rewrite firstn_app.
  replace (i - List.length pre) with 0 by lia.
  simpl; rewrite app_nil_r; reflexivity.
Qed.

Lemma record_at_snoc_new (pre : list str) (line : str) :
  record_at (pre ++ [line]) (List.length pre) =
  match numstat_pattern line, last_header pre with
  | Some (adds, dels, file_name), Some (h, a, d, m) =>
      [mkRecord h a d m file_name adds dels]
  | _, _ => []
  end.
Proof.
  unfold record_at.
  rewrite app_nth2 by lia. rewrite Nat.sub_diag; simpl.
  rewrite firstn_app, Nat.sub_diag, firstn_all; simpl.
  rewrite app_nil_r; reflexivity.
Qed.

Lemma flat_map_agree {A B} (f g : A -> list B) (l : list A) :
  (forall x, In x l -> f x = g x) -> flat_map f l = flat_map g l.
Proof.
  induction l as [|x l IH]; simpl; intros H; [reflexivity|].
  rewrite (H x) by auto. rewrite IH by auto. reflexivity.
Qed.

Lemma inherited_records_snoc (pre : list str) (line : str) :
  inherited_records (pre ++ [line]) =
  inherited_records pre ++ record_at (pre ++ [line]) (List.length pre).
Proof.
  unfold inherited_records.
  rewrite length_app; simpl. rewrite Nat.add_1_r, seq_S; simpl.
  rewrite flat_map_app; simpl. rewrite app_nil_r.
  f_equal. apply flat_map_agree.
  intros i Hi. apply in_seq in Hi. apply record_at_snoc_old. lia.
Qed.

(** The loop computes the inherited records, and carries the fields of
    the most recent header. *)
Lemma parse_lines_inherit (lines : list str) :
  file_changes (parse_lines lines) = inherited_records lines /\
  carried (parse_lines lines) =
    match last_header lines with Some x => x | None => no_header end.
Proof.
  induction lines as [|line pre [IHr IHc]] using rev_ind.
  - split; reflexivity.
  - rewrite parse_lines_snoc, inherited_records_snoc,
      record_at_snoc_new, last_header_snoc.
    unfold header_fields.
    destruct (commit_pattern line) as [[[[h a] d] m]|] eqn:C.
    + rewrite (loop_body_header _ _ C); simpl.
      rewrite patterns_exclusive by congruence.
      rewrite app_nil_r, author_or_sentinel. split; [assumption|reflexivity].
    + destruct (numstat_pattern line) as [[[x y] f]|] eqn:N.
      * destruct (last_header pre) as [[[[h a] d] m]|] eqn:Lh.
        -- pose proof (last_header_hash _ Lh) as Hh.
           unfold carried in IHc. inversion IHc as [[E1 E2 E3 E4]].
           rewrite <- E1 in Hh.
           rewrite (loop_body_numstat _ _ N Hh); simpl.
           rewrite IHr. unfold carried; simpl. split; reflexivity.
        -- assert (E1 : current_hash (parse_lines pre) = PyNone)
             by (unfold carried, no_header in IHc; congruence).
           rewrite (loop_body_unmatched _ _ C (or_intror E1)).
           rewrite app_nil_r, unmatched_file_changes, unmatched_carried.
           split; assumption.
      * rewrite (loop_body_unmatched _ _ C (or_introl N)).
        rewrite app_nil_r, unmatched_file_changes, unmatched_carried.
        split; assumption.
Qed.

Lemma length_flat_map_filter {A B} (f : A -> list B) (g : A -> bool)
      (l : list A) :
  (forall x, List.length (f x) = if g x then 1 else 0) ->
  List.length (flat_map f l) = List.length (filter g l).
Proof.
  intros H; induction l as [|x l IH]; simpl; [reflexivity|].
  rewrite length_app, H, IH. destruct (g x); reflexivity.
Qed.

Lemma length_inherited_records (lines : list str) :
  List.length (inherited_records lines) =
  List.length (filter (follows_header lines) (seq 0 (List.length lines))).
Proof.
  apply length_flat_map_filter. intros i.
  unfold record_at, follows_header.
  destruct (numstat_pattern (nth i lines [])) as [[[a d] f]|];
    [|reflexivity].
  destruct (last_header (firstn i lines)) as [[[[h u] t] m]|]; reflexivity.
Qed.

(** ** Lines that are not headers *)

Lemma loop_body_headerless (st : parser) (line : str) :
  commit_pattern line = None ->
  carried (loop_body st line) = carried st /\
  exists new,
    file_changes (loop_body st line) = file_changes st ++ new /\
    Forall (fun r => header_of r = carried st) new.
Proof.
  intros C.
  destruct (numstat_pattern line) as [[[a d] f]|] eqn:N.
  - destruct (is_not_none (current_hash st)) eqn:H.
    + rewrite (loop_body_numstat _ _ N H). split; [reflexivity|].
      eexists; split; [reflexivity|]. repeat constructor.
    + assert (E : current_hash st = PyNone)
        by (destruct (current_hash st); [reflexivity | discriminate]).
      rewrite (loop_body_unmatched _ _ C (or_intror E)).
      rewrite unmatched_file_changes, unmatched_carried.
      split; [reflexivity|]. exists []; rewrite app_nil_r; auto.
  - rewrite (loop_body_unmatched _ _ C (or_introl N)).
    rewrite unmatched_file_changes, unmatched_carried.
    split; [reflexivity|]. exists []; rewrite app_nil_r; auto.
Qed.

(** Until the next header the carried fields stay, and every new record
    has them. *)
Lemma parse_from_headerless (body : list str) (st : parser) :
  Forall (fun l => commit_pattern l = None) body ->
  carried (parse_from st body) = carried st /\
  exists new,
    file_changes (parse_from st body) = file_changes st ++ new /\
    Forall (fun r => header_of r = carried st) new.
Proof.
  revert st; induction body as [|l body IH]; intros st H.
  - split; [reflexivity|]. exists []; rewrite app_nil_r; auto.
  - inversion H as [|? ? Hl Hb]; subst. simpl.
    destruct (loop_body_headerless st _ Hl) as [Ec [n1 [E1 F1]]].
    destruct (IH (loop_body st l) Hb) as [Ec' [n2 [E2 F2]]].
    unfold parse_from in *. rewrite Ec in *.
    split; [assumption|].
    exists (n1 ++ n2). rewrite E2, E1, app_assoc. split; [reflexivity|].
    apply Forall_app; auto.
Qed.

Lemma last_header_headerless (lines : list str) :
  Forall (fun l => commit_pattern l = None) lines ->
  last_header lines = None.
Proof.
  induction 1 as [|l lines Hl _ IH]; simpl; [reflexivity|].
  rewrite IH. unfold header_fields. rewrite Hl. reflexivity.
Qed.

(** Nothing is recorded before the first header. *)
Lemma parse_from_before_header (body : list str) (st : parser) :
  Forall (fun l => commit_pattern l = None) body ->
  current_hash st = PyNone ->
  file_changes (parse_from st body) = file_changes st /\
  carried (parse_from st body) = carried st.
Proof.
  revert st; induction body as [|l body IH]; intros st H E; [auto|].
  inversion H as [|? ? Hl Hb]; subst. simpl.
  pose proof (loop_body_unmatched st l Hl (or_intror E)) as Eq.
  assert (E' : current_hash (loop_body st l) = PyNone).
  { rewrite Eq. destruct (truthy (strip l)); exact E. }
  destruct (IH _ Hb E') as [Hf Hc]. unfold parse_from in *.
  rewrite Hf, Hc, Eq, unmatched_file_changes, unmatched_carried; auto.
Qed.

Lemma parse_lines_headerless (lines : list str) :
  Forall (fun l => commit_pattern l = None) lines ->
  file_changes (parse_lines lines) = [] /\
  carried (parse_lines lines) = no_header.
Proof.
  intros H. apply (parse_from_before_header parser_init H). reflexivity.
Qed.

(** A header overwrites whatever an earlier header has left. *)
Lemma loop_body_header_twice (st : parser) (h1 h2 : str) :
  commit_pattern h1 <> None -> commit_pattern h2 <> None ->
  loop_body (loop_body st h1) h2 = loop_body st h2.
Proof.
  intros H1 H2.
  destruct (commit_pattern h1) as [[[[a1 b1] c1] d1]|] eqn:C1;
    [|congruence].
  destruct (commit_pattern h2) as [[[[a2 b2] c2] d2]|] eqn:C2;
    [|congruence].
  rewrite (loop_body_header _ _ C2), (loop_body_header st _ C2).
  rewrite (loop_body_header _ _ C1). reflexivity.
Qed.

(** ** Well-formed records *)

Lemma is_hash_capture (h : str) :
  List.length h = 40 -> forallb is_hex h = true -> is_hash (PyStr h) = true.
Proof. intros Lh Fh; simpl. rewrite Lh, Fh; reflexivity. Qed.





(** ** Running the pipeline *)

Section PipelineFacts.

Context {host : Host}.

Lemma env_eta (e : env) : mkEnv (world e) (calls e) = e.
Proof. destruct e; reflexivity. Qed.

Lemma print_all_run (ls : list str) (e : env) :
  print_all ls e = (Ok tt, mkEnv (world e) (calls e ++ map EvPrint ls)).
Proof.
  revert e; induction ls as [|l ls IH]; intros e; simpl.
  - rewrite app_nil_r, env_eta; reflexivity.
  - unfold bind, print, emit. rewrite IH; simpl.
    rewrite <- app_assoc; reflexivity.
Qed.

(** [collect_commits] always returns: it runs the log command, parses
    the lines of its output as they are, and prints the diagnostics and
    the summary. *)
Lemma collect_commits_run (temp_dir : str) (e : env) :
  let cmd := git_log_command temp_dir in
  let out := subprocess_getoutput cmd (world e) in
  let st := parse_lines (split_on newline (fst out)) in
  collect_commits temp_dir e =
    (Ok (file_changes st),
     mkEnv (snd out)
           (calls e ++ EvGetoutput cmd :: map EvPrint (printed st) ++
              [EvPrint (collected_summary (List.length (file_changes st)))])).
Proof.
  unfold collect_commits, bind, getoutput; simpl.
  destruct (subprocess_getoutput (git_log_command temp_dir) (world e))
    as [out w]; simpl.
  rewrite print_all_run; simpl. unfold print, emit, ret; simpl.
  rewrite <- !app_assoc; reflexivity.
Qed.

(** The guard only prints, and answers whether some entry has both the
    owner and the name. *)
Lemma repo_already_existing_run (owner0 name0 : str) (l : list repo)
      (e : env) :
  exists notes,
    forallb is_print notes = true /\
    repo_already_existing owner0 name0 l e =
      (Ok (existsb (same_repo owner0 name0) l),
       mkEnv (world e) (calls e ++ notes)).
Proof.
  revert e; induction l as [|r l IH]; intros e; simpl.
  - exists []; rewrite app_nil_r, env_eta; auto.
  - unfold same_repo at 1.
    destruct (str_eqb (owner r) owner0 && str_eqb (repo_name r) name0)%bool.
    + exists []; rewrite app_nil_r, env_eta; auto.
    + simpl. destruct (str_eqb (repo_name r) name0).
      * unfold bind, print, emit; simpl.
        destruct (IH (mkEnv (world e)
                            (calls e ++ [EvPrint (L "Project name already exists")])))
          as [notes [F E]].
        rewrite E; simpl.
        exists (EvPrint (L "Project name already exists") :: notes).
        rewrite <- app_assoc; simpl; auto.
      * apply IH.
Qed.

(** The guard and the driver, run from any state. *)
Lemma get_commit_history_run (owner0 name0 : str) (e : env) :
  exists notes out,
    forallb is_print notes = true /\
    forallb is_print out = true /\
    repo_already_existing owner0 name0 repos e =
      (Ok (existsb (same_repo owner0 name0) repos),
       mkEnv (world e) (calls e ++ notes)) /\
    get_commit_history_as_csv owner0 name0 e =
      if existsb (same_repo owner0 name0) repos
      then (Ok tt, mkEnv (world e) (calls e ++ out))
      else process_repo owner0 name0 (mkEnv (world e) (calls e ++ out)).
Proof.
  destruct (repo_already_existing_run owner0 name0 repos e)
    as [notes [Fn En]].
  set (banner := EvPrint ([newline] ++ L "##### Collecting Data for "
                            ++ name0 ++ L " Repository #####")).
  destruct (repo_already_existing_run owner0 name0 repos
              (mkEnv (world e) (calls e ++ [banner])))
    as [notes' [Fn' En']].
  exists notes.
  exists (if existsb (same_repo owner0 name0) repos
          then banner :: notes' ++
               [EvPrint (L "Repo has already been processed -> Exit function")]
          else banner :: notes').
  split; [exact Fn|]. split; [|split; [exact En|]].
  - destruct (existsb (same_repo owner0 name0) repos); simpl;
      rewrite ?forallb_app, Fn'; reflexivity.
  - unfold get_commit_history_as_csv, bind, print, emit.
    fold banner. rewrite En'.
    destruct (existsb (same_repo owner0 name0) repos); simpl.
    + rewrite <- !app_assoc; reflexivity.
    + rewrite <- !app_assoc; reflexivity.
Qed.




End PipelineFacts.

(** ** The matchers and the loop on the sample inputs *)

Example commit_pattern_sample :
  commit_pattern sample_header =
    Some (sample_hash, L "Ada", L "2024-01-01 00:00:00", L "fix bug").
Proof. vm_compute. reflexivity. Qed.

(** A bar in the message stays in the message: the lazy captures stop at
    the first separators that let the whole line match. *)
Example commit_pattern_bar_in_message :
  commit_pattern (sample_hash ++ L " | Ada | 2024-01-01 | a | b") =
    Some (sample_hash, L "Ada", L "2024-01-01", L "a | b").
Proof. vm_compute. reflexivity. Qed.

(** The date needs one character: with none, the lazy captures move on to
    the next separator. *)
Example commit_pattern_empty_date :
  commit_pattern (sample_hash ++ L " | Ada |  | x | y") =
    Some (sample_hash, L "Ada", L " | x", L "y") /\
  commit_pattern (sample_hash ++ L " | Ada |  | ") = None.
Proof. vm_compute. split; reflexivity. Qed.

Example numstat_pattern_sample :
  numstat_pattern sample_numstat = Some (L "5", L "2", L "foo.txt") /\
  numstat_pattern binary_numstat = Some (L "-", L "-", L "binary.png").
Proof. vm_compute. split; reflexivity. Qed.

(** The second run of white space gives back a character when nothing
    else is left for the file name. *)
Example numstat_pattern_backtracks :
  numstat_pattern (L "12 3   ") = Some (L "12", L "3", L " ") /\
  numstat_pattern (L "12 3 ") = None.
Proof. vm_compute. split; reflexivity. Qed.

(** Two commits, the first with two files, the second with one: three
    records, two with the first hash and one with the second. *)
Example two_commit_log :
  map hash (file_changes
              (parse_lines [sample_header; sample_numstat; binary_numstat;
                            []; other_header; []; sample_numstat])) =
    [PyStr sample_hash; PyStr sample_hash; PyStr other_hash].
Proof. vm_compute. reflexivity. Qed.

(** * The claims *)

Section ParserClaims.

Context {host : Host}.

(** C1.  Whatever the log command prints, [collect_commits] returns the
    inherited records of its lines: for each line of numstat shape that
    has a header line before it, one record that carries the hash, the
    author (with the sentinel for an empty one), the date and the message
    of the most recent header line before it, in log order, and nothing
    for any other line.  Their number is the number of such lines. *)
Theorem records_inherit_latest_header (temp_dir : str) (e : env) :
  let lines :=
    split_on newline
      (fst (subprocess_getoutput (git_log_command temp_dir) (world e))) in
  fst (collect_commits temp_dir e) = Ok (inherited_records lines) /\
  List.length (inherited_records lines) =
    List.length (filter (follows_header lines)
                        (seq 0 (List.length lines))).
Proof.
  intros lines. rewrite collect_commits_run; simpl. split.
  - f_equal. apply parse_lines_inherit.
  - apply length_inherited_records.
Qed.


End ParserClaims.

(** C2, as the code has it.  A line of numstat shape that comes before
    any header line yields no record and leaves the carried variables
    undefined, and the loop prints one unexpected-format diagnostic for
    it. *)
Theorem orphan_numstat_is_reported (pre : list str) (line : str) :
  Forall (fun l => commit_pattern l = None) pre ->
  numstat_pattern line <> None ->
  file_changes (parse_lines (pre ++ [line])) = [] /\
  carried (parse_lines (pre ++ [line])) = no_header /\
  printed (parse_lines (pre ++ [line])) =
    printed (parse_lines pre) ++ [unexpected_format line].
Proof.
  intros Hpre N.
  destruct (parse_lines_headerless Hpre) as [Hf Hc].
  assert (C : commit_pattern line = None).
  { destruct (commit_pattern line) eqn:C; [|reflexivity].
    rewrite patterns_exclusive in N; congruence. }
  assert (E : current_hash (parse_lines pre) = PyNone)
    by (unfold carried, no_header in Hc; congruence).
  rewrite parse_lines_snoc, (loop_body_unmatched _ _ C (or_intror E)).
  rewrite (numstat_not_blank _ N). auto.
Qed.

Lemma orphan_numstat_is_reported_witness :
  file_changes (parse_lines ([L "garbage"] ++ [sample_numstat])) = [] /\
  carried (parse_lines ([L "garbage"] ++ [sample_numstat])) = no_header /\
  printed (parse_lines ([L "garbage"] ++ [sample_numstat])) =
    printed (parse_lines [L "garbage"]) ++ [unexpected_format sample_numstat].
Proof.
  apply (@orphan_numstat_is_reported [L "garbage"] sample_numstat).
  - repeat constructor.
  - vm_compute; discriminate.
Defined.

(** C2, as stated, fails: the numstat line ["5\t2\tfoo.txt"] alone, with
    no header before it, makes the loop print a diagnostic. *)
Lemma orphan_numstat_not_silent :
  numstat_pattern sample_numstat <> None /\
  current_hash parser_init = PyNone /\
  file_changes (loop_body parser_init sample_numstat) = [] /\
  printed (loop_body parser_init sample_numstat) <> printed parser_init.
Proof.
  repeat split; try reflexivity; vm_compute; discriminate.
Qed.

(** C4.  A header line whose author capture is empty sets the carried
    author to ["Unknown Author"], and one whose capture is not empty sets
    it to the capture; every record emitted until the next header carries
    that author. *)
Theorem empty_author_becomes_unknown
        (st : parser) (line h a d m : str) (body : list str) :
  commit_pattern line = Some (h, a, d, m) ->
  Forall (fun l => commit_pattern l = None) body ->
  let who := match a with [] => L "Unknown Author" | _ :: _ => a end in
  current_author (loop_body st line) = PyStr who /\
  exists new,
    file_changes (parse_from (loop_body st line) body) =
      file_changes st ++ new /\
    Forall (fun r => author r = PyStr who) new.
Proof.
  intros C Hb who.
  rewrite (loop_body_header st _ C).
  destruct (parse_from_headerless
              (mkParser (file_changes st) (PyStr h)
                        (PyStr (if truthy a then a else unknown_author))
                        (PyStr d) (PyStr m) (printed st)) Hb)
    as [_ [new [E F]]].
  simpl in E. split; [simpl; rewrite author_or_sentinel; reflexivity|].
  exists new; split; [exact E|].
  eapply Forall_impl; [|exact F].
  intros r Hr. unfold header_of, carried in Hr; simpl in Hr.
  unfold who. rewrite <- author_or_sentinel. congruence.
Qed.

Lemma empty_author_becomes_unknown_witness :
  current_author (loop_body parser_init anonymous_header) =
    PyStr (L "Unknown Author") /\
  exists new,
    file_changes (parse_from (loop_body parser_init anonymous_header)
                             [sample_numstat; binary_numstat]) =
      file_changes parser_init ++ new /\
    Forall (fun r => author r = PyStr (L "Unknown Author")) new.
Proof.
  apply (@empty_author_becomes_unknown parser_init anonymous_header
           sample_hash [] (L "2024-01-01 00:00:00") (L "fix bug")
           [sample_numstat; binary_numstat]).
  - vm_compute; reflexivity.
  - repeat constructor.
Defined.

(** C5.  For a line of numstat shape met after a header, the captures
    are pieces of the line itself, and the record appended holds them as
    they are; a dash in the additions or in the deletions field is
    therefore kept as the string ["-"]. *)
Theorem binary_dash_is_kept (st : parser) (line a d f : str) :
  numstat_pattern line = Some (a, d, f) ->
  is_not_none (current_hash st) = true ->
  (exists w1 w2 tail, line = a ++ w1 ++ d ++ w2 ++ f ++ tail) /\
  exists r,
    file_changes (loop_body st line) = file_changes st ++ [r] /\
    additions r = a /\ deletions r = d /\ file r = f /\
    (a = L "-" -> additions r = L "-") /\
    (d = L "-" -> deletions r = L "-").
Proof.
  intros N H. split.
  - destruct (numstat_pattern_inv _ N) as [w1 [w2 [t [E _]]]].
    exists w1, w2, t; exact E.
  - rewrite (loop_body_numstat _ _ N H); simpl.
    eexists; split; [reflexivity|]. simpl. repeat split; auto.
Qed.

Lemma binary_dash_is_kept_witness :
  (exists w1 w2 tail,
      binary_numstat = L "-" ++ w1 ++ L "-" ++ w2 ++ L "binary.png" ++ tail)
  /\
  exists r,
    file_changes (loop_body (loop_body parser_init sample_header)
                            binary_numstat) =
      file_changes (loop_body parser_init sample_header) ++ [r] /\
    additions r = L "-" /\ deletions r = L "-" /\
    file r = L "binary.png" /\
    (L "-" = L "-" -> additions r = L "-") /\
    (L "-" = L "-" -> deletions r = L "-").
Proof.
  apply (@binary_dash_is_kept (loop_body parser_init sample_header)
           binary_numstat (L "-") (L "-") (L "binary.png")).
  - vm_compute; reflexivity.
  - vm_compute; reflexivity.
Defined.

(** C6.  A header line emits nothing: the loop body leaves the records
    and the output as they are; a header followed at once by another
    header can be struck from the log without changing the result; and a
    header at the end of the log adds no record. *)
Theorem header_alone_emits_nothing
        (st : parser) (pre post : list str) (h1 h2 : str) :
  commit_pattern h1 <> None ->
  commit_pattern h2 <> None ->
  file_changes (loop_body st h1) = file_changes st /\
  printed (loop_body st h1) = printed st /\
  parse_lines (pre ++ h1 :: h2 :: post) = parse_lines (pre ++ h2 :: post) /\
  file_changes (parse_lines (pre ++ [h1])) = file_changes (parse_lines pre).
Proof.
  intros H1 H2.
  assert (Hst : forall st', file_changes (loop_body st' h1) = file_changes st' /\
                            printed (loop_body st' h1) = printed st').
  { intros st'.
    destruct (commit_pattern h1) as [[[[a b] c] d]|] eqn:C; [|congruence].
    rewrite (loop_body_header st' _ C); auto. }
  split; [apply Hst|]. split; [apply Hst|]. split.
  - unfold parse_lines. rewrite !parse_from_app; simpl.
    rewrite loop_body_header_twice by assumption. reflexivity.
  - rewrite parse_lines_snoc. apply Hst.
Qed.

Lemma header_alone_emits_nothing_witness :
  file_changes (loop_body parser_init sample_header) =
    file_changes parser_init /\
  printed (loop_body parser_init sample_header) = printed parser_init /\
  parse_lines ([other_header; sample_numstat] ++
                 sample_header :: other_header :: [binary_numstat]) =
    parse_lines ([other_header; sample_numstat] ++
                   other_header :: [binary_numstat]) /\
  file_changes (parse_lines ([other_header; sample_numstat] ++
                               [sample_header])) =
    file_changes (parse_lines [other_header; sample_numstat]).
Proof.
  apply (@header_alone_emits_nothing parser_init
           [other_header; sample_numstat] [binary_numstat]
           sample_header other_header).
  - vm_compute; discriminate.
  - vm_compute; discriminate.
Defined.

(** C7.  For a line that matches neither pattern: when it is empty after
    trimming, the loop body changes nothing, so there is no record and no
    diagnostic; when it is not, the loop body appends one unexpected-format
    diagnostic and changes nothing else, neither the records nor the
    carried variables; in both cases the loop goes on with the remaining
    lines. *)
Theorem unmatched_line_is_skipped_or_reported
        (st : parser) (line : str) (rest : list str) :
  commit_pattern line = None ->
  numstat_pattern line = None ->
  loop_body st line =
    (if truthy (strip line) then with_diagnostic st line else st) /\
  (strip line = [] -> loop_body st line = st) /\
  (strip line <> [] -> loop_body st line = with_diagnostic st line) /\
  parse_from st (line :: rest) = parse_from (loop_body st line) rest.
Proof.
  intros C N. pose proof (loop_body_unmatched st _ C (or_introl N)) as E.
  split; [exact E|]. split; [|split].
  - rewrite E. intros ->; reflexivity.
  - rewrite E. destruct (strip line); [congruence | reflexivity].
  - reflexivity.
Qed.

Lemma unmatched_line_is_skipped_or_reported_witness :
  loop_body parser_init (L "   ") = parser_init /\
  loop_body (loop_body parser_init sample_header) (L "oops") =
    with_diagnostic (loop_body parser_init sample_header) (L "oops").
Proof.
  split.
  - apply (@unmatched_line_is_skipped_or_reported parser_init (L "   ") []);
      vm_compute; reflexivity.
  - apply (@unmatched_line_is_skipped_or_reported
             (loop_body parser_init sample_header) (L "oops") []);
      vm_compute; (reflexivity || discriminate).
Defined.

(** The [replace] in [collect_commits] acts on the command, not on the
    log: a directory name without a line feed gives the command as
    written. *)
Lemma git_log_command_plain (temp_dir : str) :
  forallb dot temp_dir = true ->
  git_log_command temp_dir =
    L "git -C " ++ temp_dir ++
    L " -c diff.renameLimit=10000 log --all --pretty=format:'%H | %an | %ad | %s' --numstat --date=format:'%Y-%m-%d %H:%M:%S'".
Proof.
  intros H. unfold git_log_command. apply replace_char_absent.
  rewrite !forallb_app. fold dot. rewrite H. vm_compute. reflexivity.
Qed.

(** C3, on the code.  The log reaches the parser as the log command
    printed it: a line feed inside a commit message is not replaced, the
    header is cut at it, the record holds the first line of the message
    only and the second line is reported as of unexpected format. *)
Theorem message_newline_splits_header :
  @collect_commits (toy_host two_line_message_log) (L "temp_repo")
                   (@mkEnv (toy_host two_line_message_log) [] []) =
    (Ok [mkRecord (PyStr sample_hash) (PyStr (L "Ada"))
                  (PyStr (L "2024-01-01 00:00:00")) (PyStr (L "fix bug"))
                  (L "foo.txt") (L "5") (L "2")],
     @mkEnv (toy_host two_line_message_log) []
            [EvGetoutput (git_log_command (L "temp_repo"));
             EvPrint (unexpected_format (L "second line"));
             EvPrint (L "1 file changes were collected...")]).
Proof. vm_compute. reflexivity. Qed.

(** The guard's test names an entry with both the owner and the name. *)
Lemma same_repo_listed (owner0 name0 : str) (l : list repo) :
  existsb (same_repo owner0 name0) l = true <->
  exists r, In r l /\ owner r = owner0 /\ repo_name r = name0.
Proof.
  rewrite existsb_exists. unfold same_repo.
  split; intros [r [Hin H]]; exists r; split; auto.
  - apply andb_true_iff in H as [Ho Hn].
    apply str_eqb_eq in Ho, Hn. auto.
  - destruct H as [-> ->]. rewrite !str_eqb_refl; reflexivity.
Qed.

(** A blank line matches neither pattern. *)
Lemma blank_line_unmatched (line : str) :
  strip line = [] ->
  commit_pattern line = None /\ numstat_pattern line = None.
Proof.
  intros H.
  assert (T : truthy (strip line) = false) by (rewrite H; reflexivity).
  split.
  - destruct (commit_pattern line) eqn:C; [|reflexivity].
    rewrite header_not_blank in T by congruence. discriminate.
  - destruct (numstat_pattern line) eqn:N; [|reflexivity].
    rewrite numstat_not_blank in T by congruence. discriminate.
Qed.

Section DriverClaims.

Context {host : Host}.

(** C9.  When the target directory exists, [clone_repo] raises the
    directory-conflict error after the one call that looks the directory
    up: the world is unchanged, and neither [os.makedirs] nor the clone is
    called. *)
Theorem clone_refuses_existing_directory
        (repo_owner name0 temp_dir : str) (e : env) :
  path_exists temp_dir (world e) = true ->
  clone_repo repo_owner name0 temp_dir e =
    (Raise (directory_conflict temp_dir),
     mkEnv (world e) (calls e ++ [EvExists temp_dir])).
Proof.
  intros H. unfold clone_repo, bind, os_path_exists, raise.
  rewrite H. reflexivity.
Qed.

End DriverClaims.

Lemma clone_refuses_existing_directory_witness :
  @clone_repo (toy_host []) (L "microsoft") (L "vscode") (L "temp_repo")
              (@mkEnv (toy_host []) [L "temp_repo"] []) =
    (Raise (directory_conflict (L "temp_repo")),
     @mkEnv (toy_host []) [L "temp_repo"] ([] ++ [EvExists (L "temp_repo")])).
Proof.
  apply (@clone_refuses_existing_directory (toy_host [])
           (L "microsoft") (L "vscode") (L "temp_repo")
           (@mkEnv (toy_host []) [L "temp_repo"] [])).
  vm_compute; reflexivity.
Defined.

(** * Further properties *)

(** ** The matchers find the text that was written *)

Section BacktrackingComplete.

Variable R : Type.
Implicit Types (k : str -> str -> option R) (r : R).

Lemma exactly_complete (n : nat) p k (acc c rest : str) :
  List.length c = n -> forallb p c = true ->
  exactly n p k acc (c ++ rest) = k (acc ++ c) rest.
Proof.
  revert n acc; induction c as [|x c IH]; intros n acc Hn F; subst n; simpl.
  - rewrite app_nil_r; reflexivity.
  - simpl in F. apply andb_true_iff in F as [Fx F]. rewrite Fx.
    rewrite IH by auto. rewrite <- app_assoc; reflexivity.
Qed.

(** A greedy run takes all it can, and stays there when the rest of the
    pattern then matches. *)
Lemma star_greedy_longest p k (acc c rest : str) r :
  forallb p c = true ->
  match rest with [] => True | x :: _ => p x = false end ->
  k (acc ++ c) rest = Some r ->
  star_greedy p k acc (c ++ rest) = Some r.
Proof.
  revert acc; induction c as [|y c IH]; intros acc F Hr K; simpl.
  - rewrite app_nil_r in K.
    destruct rest as [|x rest]; simpl; [exact K|]. rewrite Hr; exact K.
  - simpl in F. apply andb_true_iff in F as [Fy F]. rewrite Fy.
    rewrite (IH (acc ++ [y])); auto.
    rewrite <- app_assoc; exact K.
Qed.

Lemma plus_greedy_longest p k (c rest : str) r :
  c <> [] -> forallb p c = true ->
  match rest with [] => True | x :: _ => p x = false end ->
  k c rest = Some r ->
  plus_greedy p k (c ++ rest) = Some r.
Proof.
  destruct c as [|y c]; [congruence|]. intros _ F Hr K; simpl.
  simpl in F. apply andb_true_iff in F as [Fy F]. rewrite Fy.
  apply star_greedy_longest; auto.
Qed.

(** A lazy run stops at the first place where the rest of the pattern
    matches. *)
Lemma star_lazy_first p k (acc c rest : str) r :
  forallb p c = true ->
  (forall c1 c2, c = c1 ++ c2 -> c2 <> [] ->
                 k (acc ++ c1) (c2 ++ rest) = None) ->
  k (acc ++ c) rest = Some r ->
  star_lazy p k acc (c ++ rest) = Some r.
Proof.
  revert acc; induction c as [|y c IH]; intros acc F Early K.
  - rewrite app_nil_r in K. simpl.
    destruct rest; simpl; rewrite K; reflexivity.
  - simpl in F. apply andb_true_iff in F as [Fy F]. simpl.
    pose proof (Early [] (y :: c) eq_refl) as E0.
    rewrite app_nil_r in E0. simpl in E0. rewrite E0 by discriminate.
    rewrite Fy. apply IH; auto.
    + intros c1 c2 -> N. rewrite <- app_assoc. simpl.
      apply (Early (y :: c1) c2); auto.
    + rewrite <- app_assoc; exact K.
Qed.

Lemma plus_lazy_first p k (c rest : str) r :
  c <> [] -> forallb p c = true ->
  (forall c1 c2, c = c1 ++ c2 -> c1 <> [] -> c2 <> [] ->
                 k c1 (c2 ++ rest) = None) ->
  k c rest = Some r ->
  plus_lazy p k (c ++ rest) = Some r.
Proof.
  destruct c as [|y c]; [congruence|]. intros _ F Early K; simpl.
  simpl in F. apply andb_true_iff in F as [Fy F]. rewrite Fy.
  apply star_lazy_first; auto.
  intros c1 c2 -> N. apply (Early (y :: c1) c2); auto. discriminate.
Qed.

(** The separator is not found inside a text without a bar. *)
Lemma lit_separator_fails (k1 : str -> option R) (c rest : str) :
  c <> [] -> forallb no_bar c = true ->
  lit (L " | ") k1 (c ++ L " | " ++ rest) = None.
Proof.
  destruct c as [|x c]; [congruence|]. intros _ F.
  simpl in F. apply andb_true_iff in F as [_ F].
  change (L " | ") with [" "%char; "|"%char; " "%char]. cbn [lit app].
  destruct (Ascii.eqb " " x); [|reflexivity].
  destruct c as [|y c]; cbn [lit app]; [reflexivity|].
  cbn [forallb] in F. apply andb_true_iff in F as [Fy _].
  unfold no_bar in Fy. destruct (Ascii.eqb y "|") eqn:E; [discriminate|].
  rewrite Ascii.eqb_sym, E. reflexivity.
Qed.

Lemma digits_or_dash_complete k (c rest : str) r :
  is_count c = true ->
  match rest with [] => True | x :: _ => is_digit x = false end ->
  k c rest = Some r ->
  digits_or_dash k (c ++ rest) = Some r.
Proof.
  intros C Hr K. unfold digits_or_dash.
  unfold is_count in C. apply orb_true_iff in C as [C | C].
  - apply andb_true_iff in C as [T F].
    assert (Nc : c <> []) by (destruct c; discriminate).
    rewrite (@plus_greedy_longest is_digit k c rest r Nc F Hr K).
    reflexivity.
  - apply str_eqb_eq in C; subst c.
    change (L "-" ++ rest) with ("-"%char :: rest) at 1.
    cbn [plus_greedy].
    replace (is_digit "-") with false by reflexivity.
    change ("-"%char :: rest) with (L "-" ++ rest).
    rewrite lit_complete. exact K.
Qed.

End BacktrackingComplete.

Lemma space_not_digit (c : ascii) : is_space c = true -> is_digit c = false.
Proof.
  intros H. destruct (is_digit c) eqn:D; [|reflexivity].
  apply digit_not_space in D. congruence.
Qed.

Lemma head_of_spaces (w rest : str) :
  w <> [] -> forallb is_space w = true ->
  match w ++ rest with [] => True | x :: _ => is_digit x = false end.
Proof.
  destruct w as [|x w]; [congruence|]. intros _ F; simpl in *.
  apply andb_true_iff in F as [Fx _]. apply space_not_digit, Fx.
Qed.

Lemma head_of_count (c rest : str) :
  is_count c = true ->
  match c ++ rest with [] => True | x :: _ => is_space x = false end.
Proof.
  intros C. apply is_count_head in C as [x [c' [-> H]]]. simpl.
  apply count_head_not_space, H.
Qed.

(** X1.  No line matches both patterns, so it makes no difference that
    the loop tests the header pattern first. *)
Theorem header_and_numstat_never_coincide (line : str) :
  commit_pattern line = None \/ numstat_pattern line = None.
Proof.
  destruct (commit_pattern line) eqn:C; [right | left; reflexivity].
  apply patterns_exclusive. congruence.
Qed.

(** X2.  A header written as the log format writes it is read back: for
    a hash of forty hexadecimal digits, an author and a date without a
    bar, a date that is not empty and a message with or without bars (none
    of them with a line feed), the header pattern captures exactly the
    hash, the author, the date and the message. *)
Theorem header_fields_are_recovered (h a d m : str) :
  List.length h = 40 -> forallb is_hex h = true ->
  forallb dot a = true -> forallb no_bar a = true ->
  d <> [] -> forallb dot d = true -> forallb no_bar d = true ->
  forallb dot m = true ->
  commit_pattern (h ++ L " | " ++ a ++ L " | " ++ d ++ L " | " ++ m) =
    Some (h, a, d, m).
Proof.
  intros Lh Fh Da Ba Nd Dd Bd Dm. unfold commit_pattern.
  rewrite exactly_complete by assumption. cbn [app].
  rewrite lit_complete.
  apply star_lazy_first; [assumption| |].
  - intros c1 c2 -> N2. apply forallb_app_inv in Ba as [_ B2].
    apply lit_separator_fails; assumption.
  - cbn [app]. rewrite lit_complete.
    apply plus_lazy_first; [assumption|assumption| |].
    + intros c1 c2 -> _ N2. apply forallb_app_inv in Bd as [_ B2].
      apply lit_separator_fails; assumption.
    + rewrite lit_complete.
      rewrite <- (app_nil_r m) at 1.
      apply star_greedy_longest; [assumption|exact I|reflexivity].
Qed.

Lemma header_fields_are_recovered_witness :
  commit_pattern (sample_hash ++ L " | " ++ L "Ada" ++ L " | "
                    ++ L "2024-01-01 00:00:00" ++ L " | " ++ L "a | b") =
    Some (sample_hash, L "Ada", L "2024-01-01 00:00:00", L "a | b").
Proof.
  apply (@header_fields_are_recovered sample_hash (L "Ada")
           (L "2024-01-01 00:00:00") (L "a | b"));
    vm_compute; (reflexivity || discriminate).
Defined.

(** X3.  A header line of the log is nothing but its four captures and
    the three separators: joining the captures with [" | "] gives the line
    back. *)
Theorem header_line_is_its_fields (text line h a d m : str) :
  In line (split_on newline text) ->
  commit_pattern line = Some (h, a, d, m) ->
  line = h ++ L " | " ++ a ++ L " | " ++ d ++ L " | " ++ m.
Proof.
  intros Hin C.
  pose proof (proj1 (Forall_forall _ _) (split_on_no_sep newline text)
                    line Hin) as Clean.
  apply commit_pattern_inv in C as [t [E [_ [_ [_ [_ [_ [_ T]]]]]]]].
  destruct T as [-> | ->].
  - rewrite app_nil_r in E. exact E.
  - exfalso. rewrite E in Clean.
    repeat (apply forallb_app_inv in Clean as [_ Clean]).
    discriminate.
Qed.

Lemma header_line_is_its_fields_witness :
  sample_header =
    sample_hash ++ L " | " ++ L "Ada" ++ L " | "
      ++ L "2024-01-01 00:00:00" ++ L " | " ++ L "fix bug".
Proof.
  apply (@header_line_is_its_fields sample_log sample_header).
  - vm_compute. left; reflexivity.
  - vm_compute; reflexivity.
Defined.

(** X4.  A numstat line written as the log writes it is read back: two
    counts (digits, or the dash), each followed by white space, then a
    file name that is not empty, holds no line feed and does not start
    with white space; the numstat pattern captures exactly the two counts
    and the file name. *)
Theorem numstat_fields_are_recovered (a w1 d w2 f : str) :
  is_count a = true -> is_count d = true ->
  w1 <> [] -> forallb is_space w1 = true ->
  w2 <> [] -> forallb is_space w2 = true ->
  forallb dot f = true ->
  match f with [] => False | c :: _ => is_space c = false end ->
  numstat_pattern (a ++ w1 ++ d ++ w2 ++ f) = Some (a, d, f).
Proof.
  intros Ca Cd N1 F1 N2 F2 Df Hf. unfold numstat_pattern.
  apply digits_or_dash_complete;
    [assumption | apply head_of_spaces; assumption |].
  apply plus_greedy_longest;
    [assumption | assumption | apply head_of_count; assumption |].
  apply digits_or_dash_complete;
    [assumption | apply head_of_spaces; assumption |].
  apply plus_greedy_longest; [assumption | assumption | |].
  - destruct f; [destruct Hf | exact Hf].
  - rewrite <- (app_nil_r f) at 1.
    apply plus_greedy_longest;
      [destruct f; [destruct Hf | discriminate]
      | assumption | exact I | reflexivity].
Qed.

Lemma numstat_fields_are_recovered_witness :
  numstat_pattern (L "-" ++ [tab] ++ L "12" ++ L "  " ++ L "a b.txt") =
    Some (L "-", L "12", L "a b.txt").
Proof.
  apply (@numstat_fields_are_recovered (L "-") [tab] (L "12") (L "  ")
           (L "a b.txt"));
    vm_compute; (reflexivity || discriminate).
Defined.

(** ** The whole output of the loop *)

Lemma follows_header_snoc_old (pre : list str) (line : str) (i : nat) :
  i < List.length pre ->
  follows_header (pre ++ [line]) i = follows_header pre i.
Proof.
  intros Hi; unfold follows_header.
  rewrite app_nth1 by assumption. rewrite firstn_app.
  replace (i - List.length pre) with 0 by lia.
  simpl; rewrite app_nil_r; reflexivity.
Qed.

Lemma follows_header_snoc_new (pre : list str) (line : str) :
  follows_header (pre ++ [line]) (List.length pre) =
  (is_some (numstat_pattern line) && is_some (last_header pre))%bool.
Proof.
  unfold follows_header.
  rewrite app_nth2 by lia. rewrite Nat.sub_diag; simpl.
  rewrite firstn_app, Nat.sub_diag, firstn_all; simpl.
  rewrite app_nil_r; reflexivity.
Qed.

Lemma diagnostics_snoc (pre : list str) (line : str) :
  diagnostics (pre ++ [line]) =
  diagnostics pre ++
  (if (negb (is_blank line) && negb (is_header line)
       && negb (is_some (numstat_pattern line)
                && is_some (last_header pre)))%bool
   then [unexpected_format line] else []).
Proof.
  unfold diagnostics.
  rewrite length_app; simpl. rewrite Nat.add_1_r, seq_S; simpl.
  rewrite flat_map_app; simpl. rewrite app_nil_r. f_equal.
  - apply flat_map_agree. intros i Hi. apply in_seq in Hi.
    unfold diagnostic_at.
    rewrite follows_header_snoc_old by lia.
    rewrite app_nth1 by lia. reflexivity.
  - unfold diagnostic_at. rewrite follows_header_snoc_new.
    rewrite app_nth2 by lia. rewrite Nat.sub_diag; reflexivity.
Qed.

Lemma unmatched_printed (st : parser) (line : str) (b : bool) :
  printed (if b then with_diagnostic st line else st) =
  printed st ++ (if b then [unexpected_format line] else []).
Proof. destruct b; simpl; [reflexivity | rewrite app_nil_r; reflexivity]. Qed.

(** The loop prints the diagnostics of its lines, in order. *)
Lemma parse_lines_printed (lines : list str) :
  printed (parse_lines lines) = diagnostics lines.
Proof.
  induction lines as [|line pre IH] using rev_ind; [reflexivity|].
  rewrite parse_lines_snoc, diagnostics_snoc.
  destruct (parse_lines_inherit pre) as [_ Hc].
  unfold is_header, is_blank. rewrite negb_involutive.
  destruct (commit_pattern line) as [[[[h a] d] m]|] eqn:C.
  - rewrite (loop_body_header _ _ C); simpl.
    rewrite andb_false_r; simpl. rewrite app_nil_r; exact IH.
  - simpl. rewrite andb_true_r.
    destruct (numstat_pattern line) as [[[x y] f]|] eqn:N; simpl.
    + destruct (last_header pre) as [[[[h a] d] m]|] eqn:Lh; simpl.
      * pose proof (last_header_hash _ Lh) as Hh.
        assert (E : current_hash (parse_lines pre) = h)
          by (unfold carried in Hc; congruence).
        rewrite <- E in Hh.
        rewrite (loop_body_numstat _ _ N Hh); simpl.
        rewrite andb_false_r, app_nil_r; exact IH.
      * assert (E : current_hash (parse_lines pre) = PyNone)
          by (unfold carried, no_header in Hc; congruence).
        rewrite (loop_body_unmatched _ _ C (or_intror E)).
        rewrite unmatched_printed, IH, andb_true_r; reflexivity.
    + rewrite (loop_body_unmatched _ _ C (or_introl N)).
      rewrite unmatched_printed, IH, andb_true_r; reflexivity.
Qed.

(** Each line is counted once: as a header, as a blank line, by its
    record or by its diagnostic. *)
Lemma loop_body_accounts (st : parser) (line : str) :
  List.length (file_changes (loop_body st line))
  + List.length (printed (loop_body st line))
  + (if is_header line then 1 else 0)
  + (if is_blank line then 1 else 0)
  = List.length (file_changes st) + List.length (printed st) + 1.
Proof.
  unfold is_header, is_blank.
  destruct (commit_pattern line) as [[[[h a] d] m]|] eqn:C.
  - rewrite (loop_body_header _ _ C); simpl.
    rewrite header_not_blank by congruence. simpl. lia.
  - assert (H : is_not_none (current_hash st) = true \/
                current_hash st = PyNone)
      by (destruct (current_hash st); auto).
    assert (U : loop_body st line =
                (if truthy (strip line) then with_diagnostic st line
                 else st) ->
                List.length (file_changes (loop_body st line))
                + List.length (printed (loop_body st line))
                + (if is_some (@None (str * str * str * str)) then 1 else 0)
                + (if negb (truthy (strip line)) then 1 else 0)
                = List.length (file_changes st)
                  + List.length (printed st) + 1).
    { intros ->. destruct (truthy (strip line)); simpl;
        rewrite ?length_app; simpl; lia. }
    destruct (numstat_pattern line) as [[[x y] f]|] eqn:N.
    + destruct H as [H | E].
      * rewrite (loop_body_numstat _ _ N H); simpl.
        rewrite numstat_not_blank by congruence.
        rewrite length_app; simpl. lia.
      * apply U, (loop_body_unmatched _ _ C (or_intror E)).
    + apply U, (loop_body_unmatched _ _ C (or_introl N)).
Qed.

Lemma parse_from_accounts (lines : list str) (st : parser) :
  List.length (file_changes (parse_from st lines))
  + List.length (printed (parse_from st lines))
  + List.length (filter is_header lines)
  + List.length (filter is_blank lines)
  = List.length (file_changes st) + List.length (printed st)
    + List.length lines.
Proof.
  revert st; induction lines as [|l lines IH]; intros st; simpl; [lia|].
  pose proof (IH (loop_body st l)) as H1.
  pose proof (loop_body_accounts st l) as H2.
  unfold parse_from in *.
  destruct (is_header l), (is_blank l); simpl; lia.
Qed.

(** The loop only appends. *)
Lemma loop_body_extends (st : parser) (line : str) :
  exists rs ds,
    file_changes (loop_body st line) = file_changes st ++ rs /\
    printed (loop_body st line) = printed st ++ ds.
Proof.
  destruct (commit_pattern line) as [[[[h a] d] m]|] eqn:C.
  - rewrite (loop_body_header _ _ C). exists (@nil FileChangeRecord), (@nil str); simpl.
    rewrite !app_nil_r; auto.
  - assert (H : is_not_none (current_hash st) = true \/
                current_hash st = PyNone)
      by (destruct (current_hash st); auto).
    assert (U : forall b : bool,
               exists rs ds,
                 file_changes (if b then with_diagnostic st line else st)
                 = file_changes st ++ rs /\
                 printed (if b then with_diagnostic st line else st)
                 = printed st ++ ds).
    { intros b. exists (@nil FileChangeRecord), (if b then [unexpected_format line] else []).
      rewrite unmatched_file_changes, unmatched_printed, app_nil_r; auto. }
    destruct (numstat_pattern line) as [[[x y] f]|] eqn:N.
    + destruct H as [H | E].
      * rewrite (loop_body_numstat _ _ N H); simpl.
        eexists; exists (@nil str); split;
          [reflexivity | rewrite app_nil_r; reflexivity].
      * rewrite (loop_body_unmatched _ _ C (or_intror E)). apply U.
    + rewrite (loop_body_unmatched _ _ C (or_introl N)). apply U.
Qed.

Lemma parse_from_extends (lines : list str) (st : parser) :
  exists rs ds,
    file_changes (parse_from st lines) = file_changes st ++ rs /\
    printed (parse_from st lines) = printed st ++ ds.
Proof.
  revert st; induction lines as [|l lines IH]; intros st; simpl.
  - exists (@nil FileChangeRecord), (@nil str); rewrite !app_nil_r; auto.
  - destruct (loop_body_extends st l) as [r1 [d1 [E1 E2]]].
    destruct (IH (loop_body st l)) as [r2 [d2 [E3 E4]]].
    unfold parse_from in *.
    exists (r1 ++ r2), (d1 ++ d2).
    rewrite E3, E4, E1, E2, !app_assoc; auto.
Qed.

(** ** No line feed in a record *)

Lemma hex_is_dot (c : ascii) : is_hex c = true -> dot c = true.
Proof. by_cases_on_char c. Qed.

Lemma forallb_weaken {A} (p q : A -> bool) (l : list A) :
  (forall x, p x = true -> q x = true) ->
  forallb p l = true -> forallb q l = true.
Proof.
  intros H; induction l as [|x l IH]; simpl; [auto|].
  rewrite !andb_true_iff. intros [Hx Hl]; auto.
Qed.

Lemma count_is_clean (s : str) : is_count s = true -> forallb dot s = true.
Proof.
  unfold is_count. rewrite orb_true_iff, andb_true_iff.
  intros [[_ F] | E].
  - apply (forallb_weaken is_digit); [|exact F].
    intros c Hc. apply hex_is_dot, digit_is_hex, Hc.
  - apply str_eqb_eq in E; subst; reflexivity.
Qed.

Lemma sentinel_clean (a : str) :
  forallb dot a = true ->
  forallb dot (if truthy a then a else unknown_author) = true.
Proof. destruct a; [reflexivity | auto]. Qed.

Lemma loop_body_clean (st : parser) (line : str) :
  parser_clean st -> parser_clean (loop_body st line).
Proof.
  intros Hok. pose proof Hok as [Hr Hc].
  destruct (commit_pattern line) as [[[[h a] d] m]|] eqn:C.
  - rewrite (loop_body_header _ _ C). split; simpl; [assumption|].
    intros _.
    apply commit_pattern_inv in C
      as [t [_ [_ [Fh [Da [Nd [Dd [Dm _]]]]]]]].
    rewrite (forallb_weaken is_hex dot h hex_is_dot Fh).
    rewrite sentinel_clean, Dd, Dm by assumption.
    destruct d; [congruence | auto].
  - assert (H : is_not_none (current_hash st) = true \/
                current_hash st = PyNone)
      by (destruct (current_hash st); auto).
    destruct (numstat_pattern line) as [[[x y] f]|] eqn:N.
    + destruct H as [H | E].
      * rewrite (loop_body_numstat _ _ N H).
        split; simpl; [|assumption].
        rewrite forallb_app, Hr; simpl.
        destruct (Hc H) as [H1 [H2 [H3 [H4 H5]]]].
        apply numstat_pattern_inv in N
          as [w1 [w2 [t [_ [Cx [Cy [_ [_ [_ [_ [_ [Df _]]]]]]]]]]]].
        unfold clean_record; simpl.
        rewrite H1, H2, H3, H4, H5, Df.
        rewrite (count_is_clean _ Cx), (count_is_clean _ Cy). reflexivity.
      * rewrite (loop_body_unmatched _ _ C (or_intror E)).
        destruct (truthy (strip line)); exact Hok.
    + rewrite (loop_body_unmatched _ _ C (or_introl N)).
      destruct (truthy (strip line)); exact Hok.
Qed.

Lemma parse_lines_clean (lines : list str) : parser_clean (parse_lines lines).
Proof.
  unfold parse_lines.
  assert (G : forall st, parser_clean st ->
                         parser_clean (parse_from st lines)).
  { induction lines as [|l lines IH]; intros st H; simpl; auto.
    apply IH, loop_body_clean, H. }
  apply G. split; [reflexivity | discriminate].
Qed.

(** ** The text handed to the shell and the text it returns *)

Lemma split_on_nonempty (sep : ascii) (s : str) : split_on sep s <> [].
Proof.
  destruct s as [|c s]; simpl; [discriminate|].
  destruct (Ascii.eqb c sep); [discriminate|].
  destruct (split_on sep s); discriminate.
Qed.

Lemma join_split_on (sep : ascii) (s : str) :
  join sep (split_on sep s) = s.
Proof.
  induction s as [|c s IH]; [reflexivity|]. simpl.
  pose proof (split_on_nonempty sep s) as Ne.
  destruct (Ascii.eqb c sep) eqn:E.
  - apply ascii_eqb_true in E; subst c.
    destruct (split_on sep s) as [|l ls]; [congruence|].
    simpl in *. rewrite IH. reflexivity.
  - destruct (split_on sep s) as [|l ls]; [congruence|].
    simpl in *. destruct ls; simpl in *; rewrite <- IH; reflexivity.
Qed.

Lemma replace_char_app (old : ascii) (new s1 s2 : str) :
  replace_char old new (s1 ++ s2) =
  replace_char old new s1 ++ replace_char old new s2.
Proof. apply flat_map_app. Qed.

Lemma replace_char_clean (s : str) :
  forallb dot (replace_char newline (L "\n") s) = true.
Proof.
  unfold replace_char. induction s as [|c s IH]; [reflexivity|].
  simpl. rewrite forallb_app, IH, andb_true_r.
  destruct (Ascii.eqb c newline) eqn:E; [reflexivity|].
  simpl. unfold dot. rewrite E. reflexivity.
Qed.

(** ** The pipeline, stage by stage *)

Lemma filter_prints (l : list event) :
  forallb is_print l = true -> filter is_external l = [].
Proof.
  induction l as [|x l IH]; simpl; [reflexivity|].
  rewrite andb_true_iff; intros [Hx Hl].
  unfold is_external at 1. rewrite Hx; simpl. auto.
Qed.

Lemma forallb_is_print_map (ls : list str) :
  forallb is_print (map EvPrint ls) = true.
Proof. induction ls; simpl; auto. Qed.

Section StageFacts.

Context {host : Host}.

(** [clone_repo] on a free directory: look-up, creation, clone. *)
Lemma clone_repo_run (repo_owner name0 temp_dir : str) (e : env)
      (w1 w2 : World) (status : Z) :
  path_exists temp_dir (world e) = false ->
  makedirs temp_dir (world e) = inr w1 ->
  subprocess_run (clone_command repo_owner name0 temp_dir) w1
    = (status, w2) ->
  clone_repo repo_owner name0 temp_dir e =
    (if Z.eqb status 0 then Ok tt
     else Raise (CalledProcessError
                   status (clone_command repo_owner name0 temp_dir)),
     mkEnv w2 (calls e ++ [EvExists temp_dir; EvMakedirs temp_dir;
                           EvRun (clone_command repo_owner name0 temp_dir)])).
Proof.
  intros Hx Hm Hr.
  unfold clone_repo, bind, os_path_exists, os_makedirs, run_checked.
  unfold clone_command in *.
  cbn [world calls]. rewrite Hx. cbn [world calls]. rewrite Hm.
  cbn [world calls]. rewrite Hr.
  rewrite <- !app_assoc. cbn [app].
  destruct (Z.eqb status 0); reflexivity.
Qed.

(** The guard on a pair that is not listed: one warning for each entry
    that has the name. *)
Lemma repo_already_existing_unlisted (owner0 name0 : str) (l : list repo)
      (e : env) :
  existsb (same_repo owner0 name0) l = false ->
  repo_already_existing owner0 name0 l e =
    (Ok false,
     mkEnv (world e)
           (calls e ++
              repeat (EvPrint (L "Project name already exists"))
                     (List.length
                        (filter (fun r => str_eqb (repo_name r) name0) l)))).
Proof.
  revert e; induction l as [|r l IH]; intros e H; simpl.
  - rewrite app_nil_r, env_eta; reflexivity.
  - simpl in H. apply orb_false_iff in H as [Hr Hl].
    unfold same_repo in Hr. rewrite Hr.
    destruct (str_eqb (repo_name r) name0); simpl.
    + unfold bind, print, emit; simpl. rewrite IH by assumption; simpl.
      rewrite <- app_assoc; reflexivity.
    + apply IH, Hl.
Qed.

End StageFacts.

Section PipelineRun.

Context {host : Host}.

(** [process_repo] once the clone has succeeded: the rows exported are the
    records of the log, and what follows depends on the export and on the
    removal of the clone. *)
Lemma process_repo_run (repo_owner name0 out : str) (e : env)
      (w1 w2 w3 : World) :
  path_exists (L "temp_repo") (world e) = false ->
  makedirs (L "temp_repo") (world e) = inr w1 ->
  subprocess_run (clone_command repo_owner name0 (L "temp_repo")) w1
    = (0%Z, w2) ->
  subprocess_getoutput (git_log_command (L "temp_repo")) w2 = (out, w3) ->
  let rows := inherited_records (split_on newline out) in
  let pre := calls_until_export repo_owner name0 out in
  let export := EvToCsv (csv_path name0) rows in
  let cleanup := EvRun (cleanup_command (L "temp_repo")) in
  process_repo repo_owner name0 e =
    match to_csv (csv_path name0) rows w3 with
    | inl x => (Raise x, mkEnv w3 (calls e ++ pre ++ [export]))
    | inr w4 =>
        let (status, w5) :=
          subprocess_run (cleanup_command (L "temp_repo")) w4 in
        if Z.eqb status 0
        then (Ok tt,
              mkEnv w5
                (calls e ++ pre ++
                   [export; cleanup; EvTime;
                    EvPrint (L "##### Collecting data from " ++ name0
                               ++ L " took "
                               ++ elapsed_2f (time_now (world e))
                                             (time_now w5)
                               ++ L " seconds. #####")]))
        else (Raise (CalledProcessError
                       status (cleanup_command (L "temp_repo"))),
              mkEnv w5 (calls e ++ pre ++ [export; cleanup]))
    end.
Proof.
  intros Hx Hm Hr Hg rows pre export cleanup.
  unfold process_repo. unfold bind at 1. unfold time_time at 1.
  unfold bind at 1.
  rewrite (@clone_repo_run host repo_owner name0 (L "temp_repo")
             (mkEnv (world e) (calls e ++ [EvTime])) w1 w2 0%Z Hx Hm Hr).
  cbn [Z.eqb]. unfold bind at 1.
  pose proof (collect_commits_run (L "temp_repo")
                (mkEnv w2 (calls (mkEnv (world e) (calls e ++ [EvTime])) ++
                   [EvExists (L "temp_repo"); EvMakedirs (L "temp_repo");
                    EvRun (clone_command repo_owner name0 (L "temp_repo"))])))
    as Hc.
  cbv zeta in Hc. cbn [world calls] in Hc. rewrite Hg in Hc.
  cbn [fst snd] in Hc. cbn [world calls]. rewrite Hc. clear Hc.
  rewrite (proj1 (parse_lines_inherit (split_on newline out))).
  rewrite parse_lines_printed.
  fold rows. unfold bind at 1. unfold dataframe_to_csv at 1.
  cbn [world calls]. unfold csv_path in *.
  assert (Epre : forall tail,
             (((calls e ++ [EvTime]) ++
               [EvExists (L "temp_repo"); EvMakedirs (L "temp_repo");
                EvRun (clone_command repo_owner name0 (L "temp_repo"))]) ++
              EvGetoutput (git_log_command (L "temp_repo"))
              :: map EvPrint (diagnostics (split_on newline out)) ++
                 [EvPrint (collected_summary (List.length rows))]) ++ tail
             = calls e ++ pre ++ tail).
  { intros tail. unfold pre, calls_until_export. fold rows.
    rewrite <- !app_assoc. cbn [app]. rewrite <- ?app_assoc.
    reflexivity. }
  destruct (to_csv (L "./data/" ++ name0 ++ L "_commit_history.csv")
                   rows w3) as [x | w4].
  - rewrite Epre. reflexivity.
  - unfold bind at 1. unfold run_checked at 1. cbn [world calls].
    unfold cleanup_command.
    destruct (subprocess_run [L "rm"; L "-rf"; L "temp_repo"] w4)
      as [status w5].
    rewrite Epre.
    destruct (Z.eqb status 0).
    + unfold bind, time_time, print, emit. cbn [world calls].
      rewrite <- !app_assoc. reflexivity.
    + rewrite <- !app_assoc. reflexivity.
Qed.

End PipelineRun.

Lemma filter_calls_until_export {host : Host} (repo_owner name0 out : str) :
  filter is_external (calls_until_export repo_owner name0 out) =
    [EvTime; EvExists (L "temp_repo"); EvMakedirs (L "temp_repo");
     EvRun (clone_command repo_owner name0 (L "temp_repo"));
     EvGetoutput (git_log_command (L "temp_repo"))].
Proof.
  unfold calls_until_export. rewrite !filter_app.
  rewrite (filter_prints _ (forallb_is_print_map _)).
  reflexivity.
Qed.

(** * Further theorems *)

(** X5.  The loop prints, in order, one diagnostic for every line that is
    not blank, is not a header and is not a numstat line after a header,
    and nothing else; [collect_commits] makes one external call, the log
    command, prints these diagnostics and then the summary with the
    number of records it returns. *)
Theorem collect_commits_prints_the_diagnostics
        {host : Host} (temp_dir : str) (e : env) :
  let cmd := git_log_command temp_dir in
  let lines := split_on newline (fst (subprocess_getoutput cmd (world e))) in
  printed (parse_lines lines) = diagnostics lines /\
  calls (snd (collect_commits temp_dir e)) =
    calls e ++ EvGetoutput cmd :: map EvPrint (diagnostics lines)
      ++ [EvPrint (collected_summary
                     (List.length (inherited_records lines)))].
Proof.
  intros cmd lines. split; [apply parse_lines_printed|].
  rewrite collect_commits_run. cbn [snd calls].
  fold cmd. fold lines.
  rewrite parse_lines_printed, (proj1 (parse_lines_inherit lines)).
  reflexivity.
Qed.

(** X6.  Every line of the log is accounted for exactly once: it is a
    header, or a blank line, or it gives one record, or it gives one
    diagnostic. *)
Theorem every_line_is_accounted_for (lines : list str) :
  List.length lines =
    List.length (filter is_header lines)
    + List.length (filter is_blank lines)
    + List.length (file_changes (parse_lines lines))
    + List.length (printed (parse_lines lines)).
Proof.
  pose proof (parse_from_accounts lines parser_init) as H.
  unfold parse_lines. simpl in H. lia.
Qed.

(** X7.  The loop only appends: the records and the diagnostics of a
    log that goes on are those of its beginning followed by more. *)
Theorem parsing_a_longer_log_only_appends (l1 l2 : list str) :
  exists rs ds,
    file_changes (parse_lines (l1 ++ l2)) =
      file_changes (parse_lines l1) ++ rs /\
    printed (parse_lines (l1 ++ l2)) = printed (parse_lines l1) ++ ds.
Proof.
  unfold parse_lines. rewrite parse_from_app. apply parse_from_extends.
Qed.

(** X8.  No field of a record returned by [collect_commits] holds a line
    feed, the four commit fields are strings (never [None]), and the date
    is not empty. *)
Theorem collected_records_hold_no_line_feed
        {host : Host} (temp_dir : str) (e : env) :
  exists rs e',
    collect_commits temp_dir e = (Ok rs, e') /\
    forallb clean_record rs = true.
Proof.
  rewrite collect_commits_run; simpl.
  eexists; eexists; split; [reflexivity|].
  apply parse_lines_clean.
Qed.

(** X9.  The [replace] of [collect_commits] escapes the line feeds of the
    directory name and nothing else; the command handed to the shell is
    always one line. *)
Theorem log_command_is_one_line (temp_dir : str) :
  git_log_command temp_dir =
    L "git -C " ++ replace_char newline (L "\n") temp_dir ++
    L " -c diff.renameLimit=10000 log --all --pretty=format:'%H | %an | %ad | %s' --numstat --date=format:'%Y-%m-%d %H:%M:%S'"
  /\ forallb dot (git_log_command temp_dir) = true.
Proof.
  split.
  - unfold git_log_command. rewrite !replace_char_app.
    rewrite (replace_char_absent newline (L "\n") (L "git -C "))
      by reflexivity.
    do 2 apply f_equal. apply replace_char_absent. reflexivity.
  - apply replace_char_clean.
Qed.

(** X14.  Splitting the log at the line feeds loses nothing: the lines
    hold no line feed, and joined with line feeds they give the log
    back. *)
Theorem split_lines_join_back (text : str) :
  join newline (split_on newline text) = text /\
  Forall (fun l => forallb dot l = true) (split_on newline text).
Proof.
  split; [apply join_split_on | apply split_on_no_sep].
Qed.

Section DriverRuns.

Context {host : Host}.

(** X10.  For a pair that is not listed, when the directory is free
    and every stage succeeds, [get_commit_history_as_csv] returns and its
    external calls are, in order: the clock, the look-up and the creation
    of the directory, the mirror clone, the log command, the export of
    the records of that log to the file of the repository, the removal of
    the clone, and the clock. *)
Theorem pipeline_exports_the_parsed_log
        (repo_owner name0 out : str) (e : env) (w1 w2 w3 w4 w5 : World) :
  existsb (same_repo repo_owner name0) repos = false ->
  path_exists (L "temp_repo") (world e) = false ->
  makedirs (L "temp_repo") (world e) = inr w1 ->
  subprocess_run (clone_command repo_owner name0 (L "temp_repo")) w1
    = (0%Z, w2) ->
  subprocess_getoutput (git_log_command (L "temp_repo")) w2 = (out, w3) ->
  to_csv (csv_path name0) (inherited_records (split_on newline out)) w3
    = inr w4 ->
  subprocess_run (cleanup_command (L "temp_repo")) w4 = (0%Z, w5) ->
  exists new,
    get_commit_history_as_csv repo_owner name0 e =
      (Ok tt, mkEnv w5 (calls e ++ new)) /\
    filter is_external new =
      [EvTime; EvExists (L "temp_repo"); EvMakedirs (L "temp_repo");
       EvRun (clone_command repo_owner name0 (L "temp_repo"));
       EvGetoutput (git_log_command (L "temp_repo"));
       EvToCsv (csv_path name0) (inherited_records (split_on newline out));
       EvRun (cleanup_command (L "temp_repo"));
       EvTime].
Proof.
  intros Hl Hx Hm Hr Hg Ht Hc.
  destruct (get_commit_history_run repo_owner name0 e)
    as [notes [pr [_ [Fp [_ E]]]]].
  rewrite Hl in E. rewrite E.
  rewrite (@process_repo_run host repo_owner name0 out
             (mkEnv (world e) (calls e ++ pr)) w1 w2 w3 Hx Hm Hr Hg).
  rewrite Ht, Hc. cbn [Z.eqb world calls].
  eexists. split.
  - rewrite <- app_assoc. reflexivity.
  - rewrite !filter_app, (filter_prints _ Fp), filter_calls_until_export.
    reflexivity.
Qed.

(** X11.  When the clone exits with a status other than zero, the driver
    raises [CalledProcessError] with that status: nothing is extracted or
    exported, and the directory it has created is not removed. *)
Theorem failed_clone_stops_the_pipeline
        (repo_owner name0 : str) (e : env) (w1 w2 : World) (status : Z) :
  existsb (same_repo repo_owner name0) repos = false ->
  path_exists (L "temp_repo") (world e) = false ->
  makedirs (L "temp_repo") (world e) = inr w1 ->
  subprocess_run (clone_command repo_owner name0 (L "temp_repo")) w1
    = (status, w2) ->
  status <> 0%Z ->
  exists new,
    get_commit_history_as_csv repo_owner name0 e =
      (Raise (CalledProcessError
                status (clone_command repo_owner name0 (L "temp_repo"))),
       mkEnv w2 (calls e ++ new)) /\
    filter is_external new =
      [EvTime; EvExists (L "temp_repo"); EvMakedirs (L "temp_repo");
       EvRun (clone_command repo_owner name0 (L "temp_repo"))].
Proof.
  intros Hl Hx Hm Hr Hs.
  destruct (get_commit_history_run repo_owner name0 e)
    as [notes [pr [_ [Fp [_ E]]]]].
  rewrite Hl in E. rewrite E.
  unfold process_repo. unfold bind at 1. unfold time_time at 1.
  unfold bind at 1.
  rewrite (@clone_repo_run host repo_owner name0 (L "temp_repo")
             (mkEnv (world (mkEnv (world e) (calls e ++ pr)))
                    (calls (mkEnv (world e) (calls e ++ pr)) ++ [EvTime]))
             w1 w2 status Hx Hm Hr).
  apply Z.eqb_neq in Hs. rewrite Hs. cbn [world calls].
  eexists. split.
  - rewrite <- !app_assoc. reflexivity.
  - rewrite !filter_app, (filter_prints _ Fp). reflexivity.
Qed.

(** X12.  When the export fails, the driver raises the error of the
    export and the clone is not removed: the last external call is the
    export itself. *)
Theorem failed_export_skips_the_cleanup
        (repo_owner name0 out : str) (e : env) (w1 w2 w3 : World) (x : exn) :
  existsb (same_repo repo_owner name0) repos = false ->
  path_exists (L "temp_repo") (world e) = false ->
  makedirs (L "temp_repo") (world e) = inr w1 ->
  subprocess_run (clone_command repo_owner name0 (L "temp_repo")) w1
    = (0%Z, w2) ->
  subprocess_getoutput (git_log_command (L "temp_repo")) w2 = (out, w3) ->
  to_csv (csv_path name0) (inherited_records (split_on newline out)) w3
    = inl x ->
  exists new,
    get_commit_history_as_csv repo_owner name0 e =
      (Raise x, mkEnv w3 (calls e ++ new)) /\
    filter is_external new =
      [EvTime; EvExists (L "temp_repo"); EvMakedirs (L "temp_repo");
       EvRun (clone_command repo_owner name0 (L "temp_repo"));
       EvGetoutput (git_log_command (L "temp_repo"));
       EvToCsv (csv_path name0) (inherited_records (split_on newline out))].
Proof.
  intros Hl Hx Hm Hr Hg Ht.
  destruct (get_commit_history_run repo_owner name0 e)
    as [notes [pr [_ [Fp [_ E]]]]].
  rewrite Hl in E. rewrite E.
  rewrite (@process_repo_run host repo_owner name0 out
             (mkEnv (world e) (calls e ++ pr)) w1 w2 w3 Hx Hm Hr Hg).
  rewrite Ht. cbn [world calls].
  eexists. split.
  - rewrite <- app_assoc. reflexivity.
  - rewrite !filter_app, (filter_prints _ Fp), filter_calls_until_export.
    reflexivity.
Qed.

(** X13.  For a pair that is not listed the guard answers no, leaves the
    world as it is, and prints "Project name already exists" once for each
    entry of the list that has the name (with another owner), and nothing
    else. *)
Theorem unlisted_pair_warns_per_namesake
        (owner0 name0 : str) (l : list repo) (e : env) :
  existsb (same_repo owner0 name0) l = false ->
  repo_already_existing owner0 name0 l e =
    (Ok false,
     mkEnv (world e)
           (calls e ++
              repeat (EvPrint (L "Project name already exists"))
                     (List.length
                        (filter (fun r => str_eqb (repo_name r) name0) l)))).
Proof. apply repo_already_existing_unlisted. Qed.


End DriverRuns.

Lemma pipeline_exports_the_parsed_log_witness :
  exists new,
    @get_commit_history_as_csv (toy_host sample_log)
      (L "rust-lang") (L "rust") (@mkEnv (toy_host sample_log) [] []) =
      (Ok tt,
       @mkEnv (toy_host sample_log) [L "temp_repo"]
              (calls (@mkEnv (toy_host sample_log) [] []) ++ new)) /\
    filter is_external new =
      [EvTime; EvExists (L "temp_repo"); EvMakedirs (L "temp_repo");
       EvRun (@clone_command (toy_host sample_log)
                (L "rust-lang") (L "rust") (L "temp_repo"));
       EvGetoutput (git_log_command (L "temp_repo"));
       EvToCsv (csv_path (L "rust"))
               (inherited_records (split_on newline sample_log));
       EvRun (cleanup_command (L "temp_repo"));
       EvTime].
Proof.
  apply (@pipeline_exports_the_parsed_log (toy_host sample_log)
           (L "rust-lang") (L "rust") sample_log
           (@mkEnv (toy_host sample_log) [] [])
           [L "temp_repo"] [L "temp_repo"] [L "temp_repo"]
           [L "temp_repo"] [L "temp_repo"]);
    vm_compute; reflexivity.
Defined.

Lemma failed_clone_stops_the_pipeline_witness :
  exists new,
    @get_commit_history_as_csv (flaky_host 128 true)
      (L "rust-lang") (L "rust") (@mkEnv (flaky_host 128 true) [] []) =
      (Raise (CalledProcessError
                128 (@clone_command (flaky_host 128 true)
                       (L "rust-lang") (L "rust") (L "temp_repo"))),
       @mkEnv (flaky_host 128 true) [L "temp_repo"]
              (calls (@mkEnv (flaky_host 128 true) [] []) ++ new)) /\
    filter is_external new =
      [EvTime; EvExists (L "temp_repo"); EvMakedirs (L "temp_repo");
       EvRun (@clone_command (flaky_host 128 true)
                (L "rust-lang") (L "rust") (L "temp_repo"))].
Proof.
  apply (@failed_clone_stops_the_pipeline (flaky_host 128 true)
           (L "rust-lang") (L "rust")
           (@mkEnv (flaky_host 128 true) [] [])
           [L "temp_repo"] [L "temp_repo"] 128%Z);
    vm_compute; (reflexivity || discriminate).
Defined.

Lemma failed_export_skips_the_cleanup_witness :
  exists new,
    @get_commit_history_as_csv (flaky_host 0 false)
      (L "rust-lang") (L "rust") (@mkEnv (flaky_host 0 false) [] []) =
      (Raise (OSError (csv_path (L "rust"))),
       @mkEnv (flaky_host 0 false) [L "temp_repo"]
              (calls (@mkEnv (flaky_host 0 false) [] []) ++ new)) /\
    filter is_external new =
      [EvTime; EvExists (L "temp_repo"); EvMakedirs (L "temp_repo");
       EvRun (@clone_command (flaky_host 0 false)
                (L "rust-lang") (L "rust") (L "temp_repo"));
       EvGetoutput (git_log_command (L "temp_repo"));
       EvToCsv (csv_path (L "rust"))
               (inherited_records (split_on newline sample_log))].
Proof.
  apply (@failed_export_skips_the_cleanup (flaky_host 0 false)
           (L "rust-lang") (L "rust") sample_log
           (@mkEnv (flaky_host 0 false) [] [])
           [L "temp_repo"] [L "temp_repo"] [L "temp_repo"]
           (OSError (csv_path (L "rust"))));
    vm_compute; reflexivity.
Defined.

Lemma unlisted_pair_warns_per_namesake_witness :
  @repo_already_existing (toy_host []) (L "someone") (L "react") repos
                         (@mkEnv (toy_host []) [] []) =
    (Ok false,
     @mkEnv (toy_host []) []
            (calls (@mkEnv (toy_host []) [] []) ++
               repeat (EvPrint (L "Project name already exists"))
                      (List.length
                         (filter (fun r => str_eqb (repo_name r) (L "react"))
                                 repos)))).
Proof.
  apply (@unlisted_pair_warns_per_namesake (toy_host [])
           (L "someone") (L "react") repos (@mkEnv (toy_host []) [] [])).
  vm_compute; reflexivity.
Defined.

(** * The guard and what follows it *)

Section GuardClaim.

Context {host : Host}.

(** Whatever the host answers, [process_repo] starts the acquisition: it
    reads the clock and looks the directory up; when the directory is
    free it creates it, and when that has worked it runs the clone. *)
Lemma process_repo_starts (repo_owner name0 : str) (e : env) :
  exists rest,
    calls (snd (process_repo repo_owner name0 e)) =
      calls e ++ EvTime :: EvExists (L "temp_repo") ::
        (if path_exists (L "temp_repo") (world e) then []
         else EvMakedirs (L "temp_repo") ::
              match makedirs (L "temp_repo") (world e) with
              | inl _ => []
              | inr _ =>
                  EvRun (clone_command repo_owner name0 (L "temp_repo"))
                  :: rest
              end).
Proof.
  destruct (path_exists (L "temp_repo") (world e)) eqn:Hx.
  - exists [].
    unfold process_repo, bind, time_time, clone_repo, bind,
      os_path_exists, raise.
    cbn [world calls]. rewrite Hx. cbn [snd calls].
    rewrite <- app_assoc. reflexivity.
  - destruct (makedirs (L "temp_repo") (world e)) as [x | w1] eqn:Hm.
    + exists [].
      unfold process_repo, bind, time_time, clone_repo, bind,
        os_path_exists, os_makedirs.
      cbn [world calls]. rewrite Hx. cbn [world calls]. rewrite Hm.
      cbn [snd calls]. rewrite <- !app_assoc. reflexivity.
    + destruct (subprocess_run
                  (clone_command repo_owner name0 (L "temp_repo")) w1)
        as [status w2] eqn:Hr.
      destruct (Z.eqb status 0) eqn:Hs.
      * apply Z.eqb_eq in Hs; subst status.
        destruct (subprocess_getoutput (git_log_command (L "temp_repo")) w2)
          as [out w3] eqn:Hg.
        rewrite (@process_repo_run host repo_owner name0 out e w1 w2 w3
                   Hx Hm Hr Hg).
        unfold calls_until_export.
        destruct (to_csv (csv_path name0)
                         (inherited_records (split_on newline out)) w3)
          as [x | w4].
        -- eexists. cbn [snd calls]. rewrite <- !app_assoc. reflexivity.
        -- destruct (subprocess_run (cleanup_command (L "temp_repo")) w4)
             as [st w5].
           destruct (Z.eqb st 0); eexists; cbn [snd calls];
             rewrite <- !app_assoc; reflexivity.
      * exists [].
        unfold process_repo. unfold bind at 1. unfold time_time at 1.
        unfold bind at 1.
        rewrite (@clone_repo_run host repo_owner name0 (L "temp_repo")
                   (mkEnv (world e) (calls e ++ [EvTime]))
                   w1 w2 status Hx Hm Hr).
        rewrite Hs. cbn [snd calls]. rewrite <- !app_assoc. reflexivity.
Qed.

(** C8.  [repo_already_existing] only prints, and its answer is whether
    some entry of the list [repos] has both the owner and the name.  When
    it has one, [get_commit_history_as_csv] returns at once: the world is
    as before and every call made is a print, so nothing is cloned,
    extracted, exported or removed.  When it has none, the function goes
    on with [process_repo] and the pipeline starts: after the prints the
    clock is read and the directory is looked up, a free directory is
    created, and once it is created the mirror clone is run. *)
Theorem listed_repositories_are_skipped (owner0 name0 : str) (e : env) :
  exists notes out,
    forallb is_print notes = true /\
    forallb is_print out = true /\
    repo_already_existing owner0 name0 repos e =
      (Ok (existsb (same_repo owner0 name0) repos),
       mkEnv (world e) (calls e ++ notes)) /\
    get_commit_history_as_csv owner0 name0 e =
      (if existsb (same_repo owner0 name0) repos
       then (Ok tt, mkEnv (world e) (calls e ++ out))
       else process_repo owner0 name0 (mkEnv (world e) (calls e ++ out))) /\
    if existsb (same_repo owner0 name0) repos
    then
      fst (get_commit_history_as_csv owner0 name0 e) = Ok tt /\
      world (snd (get_commit_history_as_csv owner0 name0 e)) = world e /\
      calls (snd (get_commit_history_as_csv owner0 name0 e)) = calls e ++ out
    else
      exists rest,
        calls (snd (get_commit_history_as_csv owner0 name0 e)) =
          calls e ++ out ++ EvTime :: EvExists (L "temp_repo") ::
            (if path_exists (L "temp_repo") (world e) then []
             else EvMakedirs (L "temp_repo") ::
                  match makedirs (L "temp_repo") (world e) with
                  | inl _ => []
                  | inr _ =>
                      EvRun (clone_command owner0 name0 (L "temp_repo"))
                      :: rest
                  end).
Proof.
  destruct (get_commit_history_run owner0 name0 e)
    as [notes [out [Fn [Fo [En E]]]]].
  exists notes, out. repeat (split; [assumption|]).
  rewrite E. destruct (existsb (same_repo owner0 name0) repos).
  - repeat split.
  - destruct (process_repo_starts owner0 name0
                (mkEnv (world e) (calls e ++ out))) as [rest Hrest].
    exists rest. rewrite Hrest. cbn [world calls].
    rewrite <- app_assoc. reflexivity.
Qed.

End GuardClaim.
